(** * aegis-landing: the pointer-proximity text engine and the pill-navigation
      hover accent of [src/App.jsx]

    The development embeds the numeric and textual core of two React
    components, [VariableProximity] and [PillNav], together with the two hooks
    [useAnimationFrame] and [useMousePositionRef] the first one relies on.

    - JavaScript numbers are IEEE-754 binary64 values.  They are modelled by
      [spec_float] at precision 53, so that a concrete evaluation below is the
      evaluation a JavaScript engine performs, NaN, infinities and signed
      zeros included.
    - The shape of a falloff curve (end points, monotonicity, positivity,
      continuity) is analysed over the real numbers, the arithmetic the
      formulas are written in; [calculateFalloff] is stated once, over an
      interface of arithmetic operations, and read at both instances.
    - Strings are sequences of code units below 256; the built-in functions
      the components call on them ([split], [trim], [replace], [join],
      [parseFloat], the printing of a number) are modelled after ECMAScript.
    - The effects of the hooks act on an explicit state: the listeners on the
      window, the pending animation-frame requests, and the refs of the
      component. *)

From Stdlib Require Import ZArith List String Ascii Bool Lia DecimalString.
From Stdlib Require Import Floats.SpecFloat.
From Stdlib Require Import Reals Lra.
Import ListNotations.

Local Open Scope Z_scope.

(** ** JavaScript strings

    A string is a sequence of code units; the code units below 256 are the
    characters of [string]. *)

Module JSString.

Local Open Scope string_scope.

(** WhiteSpace and LineTerminator code units, what [trim] removes. *)
Definition isWhiteSpace (c : ascii) : bool :=
  let n := N_of_ascii c in
  ((9 <=? n) && (n <=? 13) || (n =? 32) || (n =? 160))%N.

Definition isDigit (c : ascii) : bool :=
  let n := N_of_ascii c in ((48 <=? n) && (n <=? 57))%N.

Definition digitValue (c : ascii) : Z := Z.of_N (N_of_ascii c) - 48.

(** Code unit 34, the double quote. *)
Definition doubleQuote : ascii :=
  Ascii false true false false false true false false.

(** The character class of the single and the double quote. *)
Definition isQuote (c : ascii) : bool :=
  Ascii.eqb c "'" || Ascii.eqb c doubleQuote.

Fixpoint trimStart (s : string) : string :=
  match s with
  | String c r => if isWhiteSpace c then trimStart r else s
  | EmptyString => EmptyString
  end.

Fixpoint trimEnd (s : string) : string :=
  match s with
  | String c r =>
      match trimEnd r with
      | EmptyString => if isWhiteSpace c then EmptyString else String c EmptyString
      | r' => String c r'
      end
  | EmptyString => EmptyString
  end.

(** [s.trim()] *)
Definition trim (s : string) : string := trimEnd (trimStart s).

(** [s.split(sep)] for a separator of one character: never empty. *)
Fixpoint split (sep : ascii) (s : string) : list string :=
  match s with
  | EmptyString => [EmptyString]
  | String c r =>
      if Ascii.eqb c sep then EmptyString :: split sep r
      else
        match split sep r with
        | w :: ws => String c w :: ws
        | [] => [String c EmptyString]
        end
  end.

(** [s.split('')]: the code units of [s]. *)
Definition chars (s : string) : list ascii := list_ascii_of_string s.

(** [s.replace(q, '')] for the global pattern [q] of the two quotes. *)
Fixpoint removeQuotes (s : string) : string :=
  match s with
  | String c r => if isQuote c then removeQuotes r else String c (removeQuotes r)
  | EmptyString => EmptyString
  end.

(** [parts.join(sep)] *)
Fixpoint join (sep : string) (parts : list string) : string :=
  match parts with
  | [] => EmptyString
  | [p] => p
  | p :: rest => p ++ sep ++ join sep rest
  end.

(** The longest prefix of decimal digits: its value on top of [acc], its
    length on top of [len], and what follows it. *)
Fixpoint digitsPrefix (s : string) (acc len : Z) : Z * Z * string :=
  match s with
  | String c r =>
      if isDigit c then digitsPrefix r (10 * acc + digitValue c) (len + 1)
      else (acc, len, s)
  | EmptyString => (acc, len, s)
  end.

End JSString.

(** ** JavaScript numbers *)

Module JSNumber.

Definition prec : Z := 53.
Definition emax : Z := 1024.

Definition number : Type := spec_float.

Definition NaN : number := S754_nan.
Definition Infinity : number := S754_infinity false.

(** An integer literal, rounded to the nearest binary64 value. *)
Definition ofZ (n : Z) : number := binary_normalize prec emax n 0 false.

(** The binary64 value nearest to the positive rational [n / d]. *)
Definition ofRatio (sign : bool) (n d : positive) : number :=
  let '(q, e, l) := SFdiv_core_binary prec emax (Zpos n) 0 (Zpos d) 0 in
  binary_round_aux prec emax sign q e l.

Definition add : number -> number -> number := SFadd prec emax.
Definition sub : number -> number -> number := SFsub prec emax.
Definition mul : number -> number -> number := SFmul prec emax.
Definition div : number -> number -> number := SFdiv prec emax.
Definition neg : number -> number := SFopp.
Definition Math_sqrt : number -> number := SFsqrt prec emax.

(** [a >= b]; false as soon as one side is NaN. *)
Definition geb (a b : number) : bool := SFleb b a.

Definition isFinite (x : number) : bool :=
  match x with
  | S754_zero _ | S754_finite _ _ _ => true
  | _ => false
  end.

Definition isNaN (x : number) : bool :=
  match x with S754_nan => true | _ => false end.

Definition signBit (x : number) : bool :=
  match x with
  | S754_zero s | S754_infinity s | S754_finite s _ _ => s
  | S754_nan => false
  end.

(** [Math.max] and [Math.min]: NaN is contagious and [-0 < +0]. *)
Definition Math_max (a b : number) : number :=
  match a, b with
  | S754_nan, _ | _, S754_nan => S754_nan
  | S754_zero sa, S754_zero sb => S754_zero (andb sa sb)
  | _, _ => if SFltb a b then b else a
  end.

Definition Math_min (a b : number) : number :=
  match a, b with
  | S754_nan, _ | _, S754_nan => S754_nan
  | S754_zero sa, S754_zero sb => S754_zero (orb sa sb)
  | _, _ => if SFltb b a then b else a
  end.

(** [Math.ceil]: the least integral value not below [x]; a negative
    argument above [-1] gives [-0]. *)
Definition Math_ceil (x : number) : number :=
  match x with
  | S754_finite s m (Zneg p) =>
      let den := Z.pow_pos 2 p in
      let c := if s then - (Zpos m / den) else - ((- Zpos m) / den) in
      match c with
      | Z0 => S754_zero s
      | _ => ofZ c
      end
  | _ => x
  end.

(** *** Decimal conversions

    [ofDecimal sign c e10] is the binary64 value nearest to
    [c * 10 ^ e10], the rounding [parseFloat] and number literals use. *)
Definition ofDecimal (sign : bool) (c : Z) (e10 : Z) : number :=
  match c with
  | Zpos p =>
      match e10 with
      | Zneg k => ofRatio sign p (Pos.pow 10 k)
      | _ => binary_round prec emax sign (Pos.mul p (Z.to_pos (10 ^ e10))) 0
      end
  | _ => S754_zero sign
  end.

(** The least [n], searched upwards from a lower estimate, with
    [num / den < 10 ^ n]. *)
Fixpoint decimalExponent (fuel : nat) (n : Z) (num den : Z) : Z :=
  match fuel with
  | O => n
  | S fuel' =>
      let below :=
        if 0 <=? n then num <? den * 10 ^ n else num * 10 ^ (- n) <? den in
      if below then n else decimalExponent fuel' (n + 1) num den
  end.

(** The shortest decimal significand [s] and exponent [e10] with
    [s * 10 ^ e10] rounding back to [x], searched by increasing length [k];
    among two candidates of one length the nearer wins, the even one on a
    tie. *)
Fixpoint shortestDigits (fuel : nat) (k : Z) (n : Z) (num den : Z)
    (x : number) : Z * Z :=
  let e10 := n - k in
  let A := if 0 <=? e10 then num else num * 10 ^ (- e10) in
  let B := if 0 <=? e10 then den * 10 ^ e10 else den in
  let lo := A / B in
  let r := A mod B in
  let back c :=
    match SFcompare (ofDecimal false c e10) x with
    | Some Eq => true
    | _ => false
    end in
  let next :=
    match fuel with
    | O => (lo, e10)
    | S fuel' => shortestDigits fuel' (k + 1) n num den x
    end in
  if r =? 0 then (lo, e10)
  else
    match back lo, back (lo + 1) with
    | true, false => (lo, e10)
    | false, true => (lo + 1, e10)
    | true, true =>
        match 2 * r ?= B with
        | Lt => (lo, e10)
        | Gt => (lo + 1, e10)
        | Eq => if Z.even lo then (lo, e10) else (lo + 1, e10)
        end
    | false, false => next
    end.

(** Trailing zeros of the significand move into the exponent. *)
Fixpoint stripZeros (fuel : nat) (s e10 : Z) : Z * Z :=
  match fuel with
  | O => (s, e10)
  | S fuel' =>
      if (s mod 10 =? 0) && negb (s =? 0)
      then stripZeros fuel' (s / 10) (e10 + 1)
      else (s, e10)
  end.

Definition digitsOf (s : Z) : string :=
  NilEmpty.string_of_uint (N.to_uint (Z.to_N s)).

Fixpoint zeros (n : nat) : string :=
  match n with
  | O => EmptyString
  | S n' => String "0" (zeros n')
  end.

(** Number::toString for a positive finite value with significand digits
    [ds] (of length [k]) and decimal point position [n]. *)
Definition layoutDigits (ds : string) (n : Z) : string :=
  let k := Z.of_nat (String.length ds) in
  if (k <=? n) && (n <=? 21) then
    (ds ++ zeros (Z.to_nat (n - k)))%string
  else if (0 <? n) && (n <=? 21) then
    (substring 0 (Z.to_nat n) ds ++ "." ++
     substring (Z.to_nat n) (Z.to_nat (k - n)) ds)%string
  else if (-6 <? n) && (n <=? 0) then
    ("0." ++ zeros (Z.to_nat (- n)) ++ ds)%string
  else
    let e := n - 1 in
    let sign := if e <? 0 then "e-"%string else "e+"%string in
    let exponent := (sign ++ digitsOf (Z.abs e))%string in
    if k =? 1 then (ds ++ exponent)%string
    else
      (substring 0 1 ds ++ "." ++ substring 1 (Z.to_nat (k - 1)) ds
       ++ exponent)%string.

Definition toStringPositive (m : positive) (e : Z) : string :=
  let num := match e with Zneg _ => Zpos m | _ => Zpos m * 2 ^ e end in
  let den := match e with Zneg p => 2 ^ Zpos p | _ => 1 end in
  let guess := (Z.log2 num - Z.log2 den - 1) * 30103 / 100000 - 1 in
  let n := decimalExponent 700 guess num den in
  let '(s0, e0) := shortestDigits 17 1 n num den (S754_finite false m e) in
  let '(s, e10) := stripZeros 400 s0 e0 in
  let ds := digitsOf s in
  layoutDigits ds (Z.of_nat (String.length ds) + e10).

(** What a template literal prints for a number. *)
Definition toString (x : number) : string :=
  match x with
  | S754_nan => "NaN"
  | S754_zero _ => "0"
  | S754_infinity false => "Infinity"
  | S754_infinity true => "-Infinity"
  | S754_finite false m e => toStringPositive m e
  | S754_finite true m e => String "-" (toStringPositive m e)
  end.

(** *** [parseFloat]

    The longest prefix of the trimmed argument that is a decimal literal
    (sign, [Infinity] or digits with an optional fraction and exponent) is
    converted; without such a prefix the result is NaN. *)
Definition splitSign (s : string) : bool * string :=
  match s with
  | String "-" r => (true, r)
  | String "+" r => (false, r)
  | _ => (false, s)
  end.

Definition exponentPart (s : string) : Z :=
  match s with
  | String c r =>
      if Ascii.eqb c "e" || Ascii.eqb c "E" then
        let '(sg, r') := splitSign r in
        let '(v, len, _) := JSString.digitsPrefix r' 0 0 in
        if len =? 0 then 0 else if sg then - v else v
      else 0
  | EmptyString => 0
  end.

Definition parseFloat (s : string) : number :=
  let '(sg, u) := splitSign (JSString.trimStart s) in
  if String.prefix "Infinity" u then S754_infinity sg
  else
    let '(i, li, r1) := JSString.digitsPrefix u 0 0 in
    let '(m, lf, r2) :=
      match r1 with
      | String "." r => JSString.digitsPrefix r i 0
      | _ => (i, 0, r1)
      end in
    if li + lf =? 0 then NaN
    else ofDecimal sg m (exponentPart r2 - lf).

(** [parseFloat(v)] where [v] may be [undefined]. *)
Definition parseFloatArg (v : option string) : number :=
  match v with
  | Some s => parseFloat s
  | None => NaN
  end.

End JSNumber.

(** ** The arithmetic the components are written in

    [calculateDistance] and [calculateFalloff] use only the operations below.
    They are stated once, over this interface, and read at two instances:
    binary64 for evaluation and the real numbers for the shape of a curve.
    [Math.exp] is kept apart: ECMAScript leaves its binary64 result to the
    host. *)

Class Arith (T : Type) := {
  num_lit : Z -> T;
  num_add : T -> T -> T;
  num_sub : T -> T -> T;
  num_mul : T -> T -> T;
  num_div : T -> T -> T;
  num_neg : T -> T;
  num_sqrt : T -> T;
  num_min : T -> T -> T;
  num_max : T -> T -> T;
  num_ge : T -> T -> bool
}.

Class HasExp (T : Type) := { num_exp : T -> T }.

Declare Scope js_scope.
Delimit Scope js_scope with js.
Notation "x + y" := (num_add x y) : js_scope.
Notation "x - y" := (num_sub x y) : js_scope.
Notation "x * y" := (num_mul x y) : js_scope.
Notation "x / y" := (num_div x y) : js_scope.
Notation "- x" := (num_neg x) : js_scope.
Notation "x >=? y" := (num_ge x y) (at level 70) : js_scope.
Notation "# n" := (num_lit n) (at level 1, format "# n") : js_scope.

(** [x ** 2], the product of [x] with itself. *)
Definition pow2 {T} `{Arith T} (x : T) : T := (x * x)%js.

#[export] Instance binary64 : Arith JSNumber.number := {
  num_lit := JSNumber.ofZ;
  num_add := JSNumber.add;
  num_sub := JSNumber.sub;
  num_mul := JSNumber.mul;
  num_div := JSNumber.div;
  num_neg := JSNumber.neg;
  num_sqrt := JSNumber.Math_sqrt;
  num_min := JSNumber.Math_min;
  num_max := JSNumber.Math_max;
  num_ge := JSNumber.geb
}.

#[export] Instance real : Arith R := {
  num_lit := IZR;
  num_add := Rplus;
  num_sub := Rminus;
  num_mul := Rmult;
  num_div := Rdiv;
  num_neg := Ropp;
  num_sqrt := sqrt;
  num_min := Rmin;
  num_max := Rmax;
  num_ge := fun a b => if Rge_dec a b then true else false
}.

#[export] Instance real_exp : HasExp R := { num_exp := exp }.

(** ** VariableProximity: distance and falloff *)

Section Falloff.

Context {T : Type} `{Arith T} `{HasExp T}.

Definition calculateDistance (x1 y1 x2 y2 : T) : T :=
  num_sqrt (pow2 (x2 - x1) + pow2 (y2 - y1))%js.

(** The [switch] compares [falloff] with the three curve names; any other
    string falls to [default], the linear curve. *)
Definition calculateFalloff (radius : T) (falloff : string) (distance : T) : T :=
  let norm := (num_min (num_max (#1 - distance / radius) #0) #1)%js in
  if String.eqb falloff "exponential" then pow2 norm
  else if String.eqb falloff "gaussian" then
    num_exp (- pow2 (distance / (radius / #2)) / #2)%js
  else norm.

End Falloff.

(** ** VariableProximity: settings, frame callback and rendering *)

Module Proximity.

Import JSString.

(** *** [Map]: insertion-ordered, one entry per key *)

Definition JSMap : Type := list (string * JSNumber.number).

Fixpoint Map_set (k : string) (v : JSNumber.number) (m : JSMap) : JSMap :=
  match m with
  | [] => [(k, v)]
  | (k', v') :: rest =>
      if String.eqb k' k then (k', v) :: rest
      else (k', v') :: Map_set k v rest
  end.

Fixpoint Map_get (m : JSMap) (k : string) : option JSNumber.number :=
  match m with
  | [] => None
  | (k', v') :: rest => if String.eqb k' k then Some v' else Map_get rest k
  end.

(** [new Map(pairs)] *)
Definition Map_new (pairs : list (string * JSNumber.number)) : JSMap :=
  fold_left (fun m kv => Map_set (fst kv) (snd kv) m) pairs [].

(** *** [parsedSettings] *)

(** One comma-separated piece: [const [name, value] = s.split(' ')]. *)
Definition parsePair (s : string) : string * JSNumber.number :=
  let parts := split " " s in
  (removeQuotes (hd EmptyString parts),
   JSNumber.parseFloatArg (nth_error parts 1)).

Definition rawPairs (settingsStr : string) : list (string * JSNumber.number) :=
  map parsePair (map trim (split "," settingsStr)).

Definition parseSettings (settingsStr : string) : JSMap :=
  Map_new (rawPairs settingsStr).

Record VariationAxis := {
  axis : string;
  fromValue : JSNumber.number;
  toValue : JSNumber.number
}.

Definition parsedSettings (fromFontVariationSettings toFontVariationSettings : string)
  : list VariationAxis :=
  let fromSettings := parseSettings fromFontVariationSettings in
  let toSettings := parseSettings toFontVariationSettings in
  map (fun entry =>
         {| axis := fst entry;
            fromValue := snd entry;
            toValue := match Map_get toSettings (fst entry) with
                       | Some v => v
                       | None => snd entry
                       end |})
      fromSettings.

(** The axes a specification string names, in order of appearance. *)
Definition axisNames (settingsStr : string) : list string :=
  map fst (rawPairs settingsStr).

(** No single or double quote occurs in the string. *)
Definition quoteFree (s : string) : bool :=
  forallb (fun c => negb (isQuote c)) (chars s).

(** A token of a well-formed specification: not empty, and free of
    whitespace, quotes and commas. *)
Definition plainChar (c : ascii) : bool :=
  negb (isWhiteSpace c || isQuote c || Ascii.eqb c ",").

Definition plainToken (s : string) : bool :=
  negb (String.eqb s EmptyString) && forallb plainChar (chars s).

(** An axis name written with the given quote character around it, or
    bare. *)
Definition quoted (q : option ascii) (name : string) : string :=
  match q with
  | Some c => String c (name ++ String c EmptyString)
  | None => name
  end.

(** The three ways of writing an axis name. *)
Definition quoteStyle (q : option ascii) : Prop :=
  q = None \/ q = Some "'"%char \/ q = Some doubleQuote.

(** *** The style string of a letter inside the radius *)

Definition interpolatedValue (a : VariationAxis) (falloffValue : JSNumber.number) : JSNumber.number :=
  (fromValue a + (toValue a - fromValue a) * falloffValue)%js.

Definition formatAxis (a : VariationAxis) (falloffValue : JSNumber.number) : string :=
  ("'" ++ axis a ++ "' " ++ JSNumber.toString (interpolatedValue a falloffValue))%string.

Definition newSettings (parsed : list VariationAxis) (falloffValue : JSNumber.number) : string :=
  join ", " (map (fun a => formatAxis a falloffValue) parsed).

(** *** DOM and component state *)

Record DOMRect := {
  left : JSNumber.number;
  top : JSNumber.number;
  width : JSNumber.number;
  height : JSNumber.number
}.

(** A letter span: its measured box and [style.fontVariationSettings]. *)
Record LetterElement := {
  rect : DOMRect;
  fontVariationSettings : string
}.

Definition setStyle (l : LetterElement) (v : string) : LetterElement :=
  {| rect := rect l; fontVariationSettings := v |}.

(** An array written by index: a write past the end extends it with
    holes. *)
Fixpoint array_set {A} (i : nat) (v : A) (a : list (option A)) : list (option A) :=
  match i, a with
  | O, [] => [Some v]
  | O, _ :: rest => Some v :: rest
  | S i', [] => None :: array_set i' v []
  | S i', x :: rest => x :: array_set i' v rest
  end.

Definition array_get {A} (a : list (option A)) (i : nat) : option A :=
  match nth_error a i with
  | Some x => x
  | None => None
  end.

Record Props := {
  label : string;
  fromFontVariationSettings : string;
  toFontVariationSettings : string;
  containerRef : option DOMRect;
  radius : JSNumber.number;
  falloff : string
}.

Record Position := { x : JSNumber.number; y : JSNumber.number }.

Record State := {
  letterRefs : list (option LetterElement);
  interpolatedSettingsRef : list (option string);
  lastPositionRef : option Position
}.

(** *** The per-frame callback *)

Section Frame.

(** The host's [Math.exp]. *)
Variable Math_exp : JSNumber.number -> JSNumber.number.

#[local] Instance host_exp : HasExp JSNumber.number := { num_exp := Math_exp }.

Variable props : Props.

Definition settings : list VariationAxis :=
  parsedSettings (fromFontVariationSettings props) (toFontVariationSettings props).

(** The center of a letter in the coordinate space of the pointer. *)
Definition letterCenter (letterRef : LetterElement) : Position :=
  let r := rect letterRef in
  let letterCenterX := (left r + width r / #2)%js in
  let letterCenterY := (top r + height r / #2)%js in
  match containerRef props with
  | Some containerRect =>
      {| x := (letterCenterX - left containerRect)%js;
         y := (letterCenterY - top containerRect)%js |}
  | None => {| x := letterCenterX; y := letterCenterY |}
  end.

Definition letterDistance (mouse : Position) (letterRef : LetterElement)
  : JSNumber.number :=
  let c := letterCenter letterRef in
  calculateDistance (x mouse) (y mouse) (x c) (y c).

(** The body of [letterRefs.current.forEach((letterRef, index) => ...)]:
    the element and the cache of interpolated settings after it. *)
Definition animateLetter (mouse : Position) (index : nat)
    (letterRef : option LetterElement) (cache : list (option string))
  : option LetterElement * list (option string) :=
  match letterRef with
  | None => (None, cache)
  | Some el =>
      let distance := letterDistance mouse el in
      if (distance >=? radius props)%js then
        (Some (setStyle el (fromFontVariationSettings props)), cache)
      else
        let falloffValue :=
          calculateFalloff (radius props) (falloff props) distance in
        let s := newSettings settings falloffValue in
        (Some (setStyle el s), array_set index s cache)
  end.

Fixpoint forEachLetter (mouse : Position) (index : nat)
    (refs : list (option LetterElement)) (cache : list (option string))
  : list (option LetterElement) * list (option string) :=
  match refs with
  | [] => ([], cache)
  | letterRef :: rest =>
      let '(el, cache1) := animateLetter mouse index letterRef cache in
      let '(rest', cache2) := forEachLetter mouse (S index) rest cache1 in
      (el :: rest', cache2)
  end.

(** Whether the callback leaves the cache entry of this letter untouched:
    the letter is not mounted or lies outside the radius. *)
Definition keepsEntry (mouse : Position) (letterRef : option LetterElement) : Prop :=
  match letterRef with
  | Some el => num_ge (letterDistance mouse el) (radius props) = true
  | None => True
  end.

(** One run of the callback given to [useAnimationFrame], with the
    position read from [mousePositionRef.current]. *)
Definition frame (mouse : Position) (st : State) : State :=
  let '(refs, cache) :=
    forEachLetter mouse 0 (letterRefs st) (interpolatedSettingsRef st) in
  {| letterRefs := refs;
     interpolatedSettingsRef := cache;
     lastPositionRef := Some mouse |}.

End Frame.

(** *** Rendering of the label *)

(** What a word span holds: a letter span, keyed by its letter index, whose
    [ref] callback stores the element at [letterRefs.current[key]], or the
    span of one non-breaking space after the word, which has no ref. *)
Inductive Node :=
| LetterSpan (key : nat) (letter : ascii) (style : option string)
| SpaceSpan.

Record WordSpan := {
  wordKey : nat;
  children : list Node
}.

(** [word.split('').map(letter => ...)] with the counter [letterIndex++]:
    the spans and the counter afterwards. *)
Fixpoint renderLetters (cache : list (option string)) (letters : list ascii)
    (letterIndex : nat) : list Node * nat :=
  match letters with
  | [] => ([], letterIndex)
  | letter :: rest =>
      let currentLetterIndex := letterIndex in
      let '(spans, n) := renderLetters cache rest (S letterIndex) in
      (LetterSpan currentLetterIndex letter (array_get cache currentLetterIndex)
         :: spans, n)
  end.

(** [words.map((word, wordIndex) => ...)]; [count] is [words.length]. *)
Fixpoint renderWords (cache : list (option string)) (words : list string)
    (wordIndex count letterIndex : nat) : list WordSpan :=
  match words with
  | [] => []
  | word :: rest =>
      let '(spans, n) := renderLetters cache (chars word) letterIndex in
      let space := if (wordIndex <? count - 1)%nat then [SpaceSpan] else [] in
      {| wordKey := wordIndex; children := spans ++ space |}
        :: renderWords cache rest (S wordIndex) count n
  end.

Definition render (label : string) (cache : list (option string)) : list WordSpan :=
  let words := split " " label in
  renderWords cache words 0 (List.length words) 0.

(** The spans of the label in document order. *)
Definition spans (label : string) (cache : list (option string)) : list Node :=
  flat_map children (render label cache).

Definition isSpace (n : Node) : bool :=
  match n with SpaceSpan => true | LetterSpan _ _ _ => false end.

Definition separatorCount (nodes : list Node) : nat :=
  List.length (filter isSpace nodes).

(** The indices at which letter elements are registered in [letterRefs],
    the only elements the frame callback visits. *)
Fixpoint registeredRefs (nodes : list Node) : list nat :=
  match nodes with
  | [] => []
  | LetterSpan key _ _ :: rest => key :: registeredRefs rest
  | SpaceSpan :: rest => registeredRefs rest
  end.

Fixpoint glyphs (nodes : list Node) : list ascii :=
  match nodes with
  | [] => []
  | LetterSpan _ letter _ :: rest => letter :: glyphs rest
  | SpaceSpan :: rest => glyphs rest
  end.

(** The label read one character at a time: a space character is a
    separator, any other character is the next glyph. *)
Fixpoint scanLabel (cache : list (option string)) (cs : list ascii)
    (letterIndex : nat) : list Node :=
  match cs with
  | [] => []
  | c :: rest =>
      if Ascii.eqb c " " then SpaceSpan :: scanLabel cache rest letterIndex
      else LetterSpan letterIndex c (array_get cache letterIndex)
             :: scanLabel cache rest (S letterIndex)
  end.

(** The number of space characters of a string. *)
Definition spaceCount (cs : list ascii) : nat :=
  List.length (filter (fun c => Ascii.eqb c " ") cs).

(** The number of maximal runs of whitespace characters in a string. *)
Fixpoint whitespaceRuns (inRun : bool) (cs : list ascii) : nat :=
  match cs with
  | [] => 0
  | c :: rest =>
      if isWhiteSpace c
      then (if inRun then 0 else 1) + whitespaceRuns true rest
      else whitespaceRuns false rest
  end%nat.

(** The reading under which every run of whitespace is one separator and
    the glyphs are the characters that are not whitespace. *)
Definition runsAreSingleSeparators (label : string) : Prop :=
  separatorCount (spans label []) = whitespaceRuns false (chars label) /\
  glyphs (spans label []) = filter (fun c => negb (isWhiteSpace c)) (chars label).

End Proximity.

(** ** PillNav: the geometry of the hover circle *)

Module PillNav.

Import Proximity.

Record Geometry := {
  R : JSNumber.number;
  D : JSNumber.number;
  delta : JSNumber.number;
  originY : JSNumber.number
}.

(** The four constants computed from the measured pill in [layout]. *)
Definition geometry (w h : JSNumber.number) : Geometry :=
  let R := ((w * w / #4 + h * h) / (#2 * h))%js in
  let D := (JSNumber.Math_ceil (#2 * R) + #2)%js in
  let delta :=
    (JSNumber.Math_ceil
       (R - num_sqrt (num_max #0 (R * R - w * w / #4))) + #1)%js in
  let originY := (D - delta)%js in
  {| R := R; D := D; delta := delta; originY := originY |}.

(** A circle element of [circleRefs]: the box of its parent pill, if it has
    a parent. *)
Record Circle := { parentElement : option DOMRect }.

(** What [layout] writes to a circle: three style properties and the
    properties given to [gsap.set]. *)
Record CircleLayout := {
  style_width : string;
  style_height : string;
  style_bottom : string;
  xPercent : Z;
  scale : Z;
  transformOrigin : string
}.

(** The body of [circleRefs.current.forEach(circle => ...)] up to
    [gsap.set]; [None] is the early [return]. *)
Definition layoutCircle (circle : option Circle) : option CircleLayout :=
  match circle with
  | None => None
  | Some c =>
      match parentElement c with
      | None => None
      | Some rect =>
          let g := geometry (width rect) (height rect) in
          Some {| style_width := JSNumber.toString (D g) ++ "px";
                  style_height := JSNumber.toString (D g) ++ "px";
                  style_bottom := "-" ++ JSNumber.toString (delta g) ++ "px";
                  xPercent := -50;
                  scale := 0;
                  transformOrigin := "50% " ++ JSNumber.toString (originY g) ++ "px" |}
      end
  end%string.

(** A mounted circle whose pill measures [w] by [h]. *)
Definition pillOf (w h : JSNumber.number) : option Circle :=
  Some {| parentElement :=
            Some {| left := JSNumber.ofZ 0; top := JSNumber.ofZ 0;
                    width := w; height := h |} |}.

End PillNav.

(** ** The hooks: frame loop and pointer listeners of one engine instance *)

Module Lifecycle.

Import Proximity.

Inductive EventType := mousemove | touchmove.

Definition EventType_eqb (a b : EventType) : bool :=
  match a, b with
  | mousemove, mousemove | touchmove, touchmove => true
  | _, _ => false
  end.

(** The window as the instance sees it, and the instance's own cells. *)
Record World := {
  listeners : list EventType;
  frameRequests : list nat;
  nextHandle : nat;
  frameId : option nat;
  mousePositionRef : Position;
  engine : State
}.

Inductive Event :=
| Mount
| Rerender
| Unmount
| MouseMove (clientX clientY : JSNumber.number)
| TouchMove (clientX clientY : JSNumber.number)
| AnimationFrame.

Definition requestAnimationFrame (w : World) : nat * World :=
  (nextHandle w,
   {| listeners := listeners w;
      frameRequests := frameRequests w ++ [nextHandle w];
      nextHandle := S (nextHandle w);
      frameId := frameId w;
      mousePositionRef := mousePositionRef w;
      engine := engine w |}).

(** Cancelling [undefined] or a handle that is not pending does nothing. *)
Definition cancelAnimationFrame (id : option nat) (w : World) : World :=
  match id with
  | None => w
  | Some h =>
      {| listeners := listeners w;
         frameRequests := filter (fun h' => negb (Nat.eqb h' h)) (frameRequests w);
         nextHandle := nextHandle w;
         frameId := frameId w;
         mousePositionRef := mousePositionRef w;
         engine := engine w |}
  end.

Definition setListeners (ls : list EventType) (w : World) : World :=
  {| listeners := ls;
     frameRequests := frameRequests w;
     nextHandle := nextHandle w;
     frameId := frameId w;
     mousePositionRef := mousePositionRef w;
     engine := engine w |}.

Definition addEventListener (ty : EventType) (w : World) : World :=
  if existsb (EventType_eqb ty) (listeners w) then w
  else setListeners (listeners w ++ [ty]) w.

Definition removeEventListener (ty : EventType) (w : World) : World :=
  setListeners (filter (fun ty' => negb (EventType_eqb ty ty')) (listeners w)) w.

(** While the component is mounted both handlers are registered and exactly
    one frame request is pending, the one whose handle the effect holds. *)
Definition mountedInv (w : World) : Prop :=
  listeners w = [mousemove; touchmove] /\
  exists id, frameId w = Some id /\ frameRequests w = [id].

(** After teardown nothing is registered and nothing is pending. *)
Definition idleInv (w : World) : Prop :=
  listeners w = [] /\ frameRequests w = [].

Section Hooks.

Variable Math_exp : JSNumber.number -> JSNumber.number.
Variable props : Props.

(** [updatePosition] of [useMousePositionRef]. *)
Definition updatePosition (x0 y0 : JSNumber.number) (w : World) : World :=
  {| listeners := listeners w;
     frameRequests := frameRequests w;
     nextHandle := nextHandle w;
     frameId := frameId w;
     mousePositionRef :=
       match containerRef props with
       | Some rect => {| x := (x0 - left rect)%js; y := (y0 - top rect)%js |}
       | None => {| x := x0; y := y0 |}
       end;
     engine := engine w |}.

(** The window delivers an event to the handler registered for its
    type, if there is one. *)
Definition dispatch (ty : EventType) (x0 y0 : JSNumber.number) (w : World) : World :=
  if existsb (EventType_eqb ty) (listeners w) then updatePosition x0 y0 w else w.

(** [loop] of [useAnimationFrame]: run the callback, request the next
    frame and keep its handle. *)
Definition loop (w : World) : World :=
  let w1 :=
    {| listeners := listeners w;
       frameRequests := frameRequests w;
       nextHandle := nextHandle w;
       frameId := frameId w;
       mousePositionRef := mousePositionRef w;
       engine := frame Math_exp props (mousePositionRef w) (engine w) |} in
  let '(id, w2) := requestAnimationFrame w1 in
  {| listeners := listeners w2;
     frameRequests := frameRequests w2;
     nextHandle := nextHandle w2;
     frameId := Some id;
     mousePositionRef := mousePositionRef w2;
     engine := engine w2 |}.

(** A display refresh runs the callbacks that were pending when it
    began; requests made meanwhile wait for the next one. *)
Definition animationFrame (w : World) : World :=
  let due := frameRequests w in
  fold_left (fun w' _ => loop w') due
    {| listeners := listeners w;
       frameRequests := [];
       nextHandle := nextHandle w;
       frameId := frameId w;
       mousePositionRef := mousePositionRef w;
       engine := engine w |}.

(** Effect of [useAnimationFrame]: body and cleanup. *)
Definition startLoop (w : World) : World :=
  let '(id, w1) := requestAnimationFrame w in
  {| listeners := listeners w1;
     frameRequests := frameRequests w1;
     nextHandle := nextHandle w1;
     frameId := Some id;
     mousePositionRef := mousePositionRef w1;
     engine := engine w1 |}.

Definition stopLoop (w : World) : World := cancelAnimationFrame (frameId w) w.

(** Effect of [useMousePositionRef]: body and cleanup. *)
Definition listen (w : World) : World :=
  addEventListener touchmove (addEventListener mousemove w).

Definition unlisten (w : World) : World :=
  removeEventListener touchmove (removeEventListener mousemove w).

Definition step (w : World) (ev : Event) : World :=
  match ev with
  | Mount => startLoop (listen w)
  | Rerender => startLoop (stopLoop w)
  | Unmount => stopLoop (unlisten w)
  | MouseMove cx cy => dispatch mousemove cx cy w
  | TouchMove cx cy => dispatch touchmove cx cy w
  | AnimationFrame => animationFrame w
  end.

Definition run (evs : list Event) (w : World) : World := fold_left step evs w.

(** Before the component mounts nothing is registered or scheduled. *)
Definition initial (st : State) : World :=
  {| listeners := [];
     frameRequests := [];
     nextHandle := 0;
     frameId := None;
     mousePositionRef := {| x := (#0)%js; y := (#0)%js |};
     engine := st |}.

(** Events while the component stays mounted. *)
Definition whileMounted (ev : Event) : bool :=
  match ev with
  | Mount | Unmount => false
  | _ => true
  end.

(** Events the browser keeps producing whatever the component does. *)
Definition fromBrowser (ev : Event) : bool :=
  match ev with
  | MouseMove _ _ | TouchMove _ _ | AnimationFrame => true
  | _ => false
  end.

End Hooks.

End Lifecycle.

(** ** The component as the page uses it *)

Module Sample.

Import Proximity.

(** The hero title of the page: no container, so viewport coordinates. *)
Definition heroProps : Props :=
  {| label := "Cyber Immunity";
     fromFontVariationSettings := "'wght' 400";
     toFontVariationSettings := "'wght' 800";
     containerRef := None;
     radius := JSNumber.ofZ 100;
     falloff := "gaussian" |}.

(** A letter box of 40 by 60 at (300, 200): its center is (320, 230). *)
Definition farLetter : LetterElement :=
  {| rect := {| left := JSNumber.ofZ 300; top := JSNumber.ofZ 200;
                width := JSNumber.ofZ 40; height := JSNumber.ofZ 60 |};
     fontVariationSettings := "'wght' 733" |}.

(** The linear curve and the letters outside the radius never consult
    [Math.exp]; the sample sessions pass the identity in its place. *)
Definition noExp (t : JSNumber.number) : JSNumber.number := t.

Definition origin : Position := {| x := JSNumber.ofZ 0; y := JSNumber.ofZ 0 |}.

(** The same title with the default curve. *)
Definition linearProps : Props :=
  {| label := "Cyber Immunity";
     fromFontVariationSettings := "'wght' 400";
     toFontVariationSettings := "'wght' 800";
     containerRef := None;
     radius := JSNumber.ofZ 100;
     falloff := "linear" |}.

(** The pointer on the center of [farLetter]. *)
Definition onLetter : Position := {| x := JSNumber.ofZ 320; y := JSNumber.ofZ 230 |}.

Definition oneLetter : State :=
  {| letterRefs := [Some farLetter];
     interpolatedSettingsRef := [Some "'wght' 733"%string];
     lastPositionRef := None |}.

(** A session: the pointer reaches the letter, a frame runs, the component
    renders again and unmounts; the browser goes on afterwards. *)
Definition beforeUnmount : list Lifecycle.Event :=
  [Lifecycle.MouseMove (JSNumber.ofZ 320) (JSNumber.ofZ 230);
   Lifecycle.AnimationFrame;
   Lifecycle.Rerender].

Definition afterUnmount : list Lifecycle.Event :=
  [Lifecycle.MouseMove (JSNumber.ofZ 0) (JSNumber.ofZ 0);
   Lifecycle.AnimationFrame;
   Lifecycle.TouchMove (JSNumber.ofZ 310) (JSNumber.ofZ 220);
   Lifecycle.AnimationFrame].

End Sample.

(** ** More built-in functions: [parseInt] in radix 16 and 32-bit integers *)

Module JSGlobal.

(** The value of a digit of radix 16, in either case. *)
Definition hexDigitValue (c : ascii) : option Z :=
  let n := Z.of_N (N_of_ascii c) in
  if (48 <=? n) && (n <=? 57) then Some (n - 48)
  else if (97 <=? n) && (n <=? 102) then Some (n - 87)
  else if (65 <=? n) && (n <=? 70) then Some (n - 55)
  else None.

(** The longest prefix of hexadecimal digits: its value on top of [acc] and
    its length on top of [len]. *)
Fixpoint hexPrefix (s : string) (acc len : Z) : Z * Z :=
  match s with
  | String c r =>
      match hexDigitValue c with
      | Some v => hexPrefix r (16 * acc + v) (len + 1)
      | None => (acc, len)
      end
  | EmptyString => (acc, len)
  end.

(** With radix 16 a leading [0x] or [0X] is skipped. *)
Definition stripHexPrefix (s : string) : string :=
  match s with
  | String "0" (String c r) =>
      if Ascii.eqb c "x" || Ascii.eqb c "X" then r else s
  | _ => s
  end.

(** [parseInt(s, 16)]: leading whitespace and a sign are accepted, then the
    longest run of hexadecimal digits is read; without a digit the result is
    NaN.  The integer read is rounded to binary64. *)
Definition parseInt16 (s : string) : JSNumber.number :=
  let '(sg, u) := JSNumber.splitSign (JSString.trimStart s) in
  let '(v, len) := hexPrefix (stripHexPrefix u) 0 0 in
  if len =? 0 then JSNumber.NaN
  else if v =? 0 then S754_zero sg
  else JSNumber.ofZ (if sg then - v else v).

(** ToInt32, the conversion the bitwise operators apply: NaN, zeros and
    infinities give 0, other values are truncated and wrapped into the
    signed 32-bit range. *)
Definition ToInt32 (x : JSNumber.number) : Z :=
  match x with
  | S754_finite s m e =>
      let magnitude :=
        match e with
        | Zneg k => Zpos m / Z.pow_pos 2 k
        | _ => Zpos m * 2 ^ e
        end in
      let int := if s then - magnitude else magnitude in
      let wrapped := int mod 2 ^ 32 in
      if 2 ^ 31 <=? wrapped then wrapped - 2 ^ 32 else wrapped
  | _ => 0
  end.

(** [a >> n] and [a & b] on operands that are 32-bit integers already. *)
Definition shiftRight (a : Z) (n : Z) : Z := Z.shiftr a n.

Definition bitAnd (a b : Z) : Z := Z.land a b.

End JSGlobal.

(** ** Particles: colours and the pointer *)

Module Particles.

(** [hex.replace(/^#/, '')]: one leading hash is dropped. *)
Definition stripHash (hex : string) : string :=
  match hex with
  | String "#" r => r
  | _ => hex
  end.

(** [hex.split('').map(c => c + c).join('')] *)
Definition doubleDigits (hex : string) : string :=
  JSString.join EmptyString
    (map (fun c => String c (String c EmptyString)) (JSString.chars hex)).

(** One channel: [(int32 & 255) / 255] as a number. *)
Definition channel (byte : Z) : JSNumber.number :=
  JSNumber.div (JSNumber.ofZ byte) (JSNumber.ofZ 255).

Definition hexToRgb (hex : string) : list JSNumber.number :=
  let hex1 := stripHash hex in
  let hex2 := if Nat.eqb (String.length hex1) 3 then doubleDigits hex1 else hex1 in
  let int := JSGlobal.parseInt16 hex2 in
  let r := channel (JSGlobal.bitAnd (JSGlobal.shiftRight (JSGlobal.ToInt32 int) 16) 255) in
  let g := channel (JSGlobal.bitAnd (JSGlobal.shiftRight (JSGlobal.ToInt32 int) 8) 255) in
  let b := channel (JSGlobal.bitAnd (JSGlobal.ToInt32 int) 255) in
  [r; g; b].

Section Pointer.

Context {T : Type} `{Arith T}.

(** [handleMouseMove]: the pointer in the coordinates of the container,
    scaled to [-1, 1] on both axes, the vertical axis pointing up. *)
Definition handleMouseMove (clientX clientY left top width height : T) : T * T :=
  let x := ((clientX - left) / width * #2 - #1)%js in
  let y := (- ((clientY - top) / height * #2 - #1))%js in
  (x, y).

(** The hover part of [animate]: the position given to the particles. *)
Definition hoverPosition (mouse : T * T) (particleHoverFactor : T) : T * T :=
  ((- fst mouse * particleHoverFactor)%js, (- snd mouse * particleHoverFactor)%js).

End Pointer.

End Particles.

(** ** PillNav: the radius formula over any arithmetic *)

Section PillRadius.

Context {T : Type} `{Arith T}.

(** The first line of the layout computation, [R]. *)
Definition pillRadius (w h : T) : T :=
  ((w * w / #4 + h * h) / (#2 * h))%js.

(** The quantity under the square root, before the guard. *)
Definition sagittaSquare (w h : T) : T :=
  (pillRadius w h * pillRadius w h - w * w / #4)%js.

(** The vertical offset before rounding up and adding the pixel. *)
Definition rawDelta (w h : T) : T :=
  (pillRadius w h - num_sqrt (num_max #0 (sagittaSquare w h)))%js.

End PillRadius.

(** ** ScrollReveal: the text split into words and runs of whitespace *)

Module ScrollReveal.

Import JSString.

Definition consHead (c : ascii) (pieces : list string) : list string :=
  match pieces with
  | p :: rest => String c p :: rest
  | [] => [String c EmptyString]
  end.

(** [text.split(sep)] for the pattern [sep] of one capturing group of one or
    more whitespace characters: the pieces between the matches alternate
    with the matched runs, beginning and ending with a piece between
    matches.  [inRun] tells that the piece at the head is a run being
    matched. *)
Fixpoint splitRuns (inRun : bool) (s : string) : list string :=
  match s with
  | EmptyString => if inRun then [EmptyString; EmptyString] else [EmptyString]
  | String c r =>
      if isWhiteSpace c then
        if inRun then consHead c (splitRuns true r)
        else EmptyString :: consHead c (splitRuns true r)
      else
        if inRun then EmptyString :: consHead c (splitRuns false r)
        else consHead c (splitRuns false r)
  end.

(** [word.match(p)] for the pattern [p] of a whole string of one or more
    whitespace characters. *)
Definition isWhitespaceRun (word : string) : bool :=
  negb (String.eqb word EmptyString) && forallb isWhiteSpace (chars word).

Definition noWhitespace (word : string) : bool :=
  forallb (fun c => negb (isWhiteSpace c)) (chars word).

(** What the paragraph holds: a run of whitespace as plain text, or a word
    in a span of class [word], keyed by its position. *)
Inductive Node :=
| Text (s : string)
| WordSpan (key : nat) (word : string).

Fixpoint mapIndexed (index : nat) (pieces : list string) : list Node :=
  match pieces with
  | [] => []
  | word :: rest =>
      (if isWhitespaceRun word then Text word else WordSpan index word)
        :: mapIndexed (S index) rest
  end.

(** [splitText]; children that are not a string count as the empty text. *)
Definition splitText (children : option string) : list Node :=
  let text := match children with Some t => t | None => EmptyString end in
  mapIndexed 0 (splitRuns false text).

Definition nodeText (n : Node) : string :=
  match n with
  | Text s => s
  | WordSpan _ word => word
  end.

Definition isWord (n : Node) : bool :=
  match n with WordSpan _ _ => true | Text _ => false end.

(** A list of pieces that begins and ends with a word and alternates words
    with runs of whitespace. *)
Fixpoint wordsAndRuns (pieces : list string) : bool :=
  match pieces with
  | [] => false
  | [w] => noWhitespace w
  | w :: run :: rest => noWhitespace w && isWhitespaceRun run && wordsAndRuns rest
  end.

End ScrollReveal.

(** ** The contact form: status and timers *)

Module ContactForm.

Inductive Status := idle | sending | sent.

(** The two callbacks given to [setTimeout]: the outer one, due 1500 ms after
    the submit, and the inner one, due 3000 ms after the outer one ran. *)
Inductive Timer := markSent | markIdle.

Record Form := {
  formStatus : Status;
  timers : list Timer
}.

Definition initial : Form := {| formStatus := idle; timers := [] |}.

Definition handleContactSubmit (f : Form) : Form :=
  {| formStatus := sending; timers := timers f ++ [markSent] |}.

(** The submit button is disabled unless the status is [idle]. *)
Definition clickSubmit (f : Form) : Form :=
  match formStatus f with
  | idle => handleContactSubmit f
  | _ => f
  end.

Fixpoint removeAt {A} (n : nat) (l : list A) : list A :=
  match n, l with
  | _, [] => []
  | O, _ :: rest => rest
  | S n', a :: rest => a :: removeAt n' rest
  end.

(** The timer at position [n] of the pending ones comes due and runs. *)
Definition fire (n : nat) (f : Form) : Form :=
  match nth_error (timers f) n with
  | Some markSent =>
      {| formStatus := sent; timers := removeAt n (timers f) ++ [markIdle] |}
  | Some markIdle =>
      {| formStatus := idle; timers := removeAt n (timers f) |}
  | None => f
  end.

Inductive Event := Click | Fire (n : nat).

Definition step (f : Form) (ev : Event) : Form :=
  match ev with
  | Click => clickSubmit f
  | Fire n => fire n f
  end.

Definition run (evs : list Event) (f : Form) : Form := fold_left step evs f.

(** The status and the pending timers agree: nothing is pending when idle,
    the outer timer while sending, the inner one while the message shows as
    sent. *)
Definition consistent (f : Form) : Prop :=
  match formStatus f with
  | idle => timers f = []
  | sending => timers f = [markSent]
  | sent => timers f = [markIdle]
  end.

End ContactForm.

(** ** Traces of the component's life *)

Module LifecycleTraces.

Import Lifecycle.

(** React mounts an unmounted component, and renders again or unmounts a
    mounted one; the browser's events come at any time. *)
Fixpoint wellFormed (mounted : bool) (evs : list Event) : bool :=
  match evs with
  | [] => true
  | Mount :: rest => negb mounted && wellFormed true rest
  | Unmount :: rest => mounted && wellFormed false rest
  | Rerender :: rest => mounted && wellFormed true rest
  | _ :: rest => wellFormed mounted rest
  end.

Fixpoint mountedAfter (mounted : bool) (evs : list Event) : bool :=
  match evs with
  | [] => mounted
  | Mount :: rest => mountedAfter true rest
  | Unmount :: rest => mountedAfter false rest
  | _ :: rest => mountedAfter mounted rest
  end.

(** What holds of the window and the effect, mounted or not. *)
Definition invariant (mounted : bool) (w : World) : Prop :=
  if mounted then mountedInv w else idleInv w.

End LifecycleTraces.

(** ** What a specification string says about an axis *)

Module SettingsSpec.

(** The value of the last pair that names [k], if any. *)
Definition lastValue (pairs : list (string * JSNumber.number)) (k : string)
  : option JSNumber.number :=
  fold_left (fun found kv => if String.eqb (fst kv) k then Some (snd kv) else found)
    pairs None.

End SettingsSpec.

(** ** The frame callback seen letter by letter *)

Module FrameView.

Import Proximity.

Section View.

Variable Math_exp : JSNumber.number -> JSNumber.number.
Variable props : Props.
Variable mouse : Position.

(** What the callback makes of one ref. *)
Definition animated (r : option LetterElement) : option LetterElement :=
  fst (animateLetter Math_exp props mouse 0 r []).

(** The style the callback computes for a letter inside the radius. *)
Definition interpolated (el : LetterElement) : string :=
  newSettings (settings props)
    (@calculateFalloff _ binary64 (host_exp Math_exp) (radius props) (falloff props)
       (letterDistance props mouse el)).

End View.

End FrameView.

(** ** Vocabulary for the colour properties *)

Module ColourSpec.

(** An integer wrapped into the signed 32-bit range. *)
Definition wrap32 (n : Z) : Z :=
  let w := n mod 2 ^ 32 in if 2 ^ 31 <=? w then w - 2 ^ 32 else w.

(** A finite number between 0 and 1. *)
Definition unitInterval (x : JSNumber.number) : bool :=
  JSNumber.isFinite x && JSNumber.geb x (JSNumber.ofZ 0)
  && JSNumber.geb (JSNumber.ofZ 1) x.

(** The text cannot begin a number of radix 16: it is empty, or its first
    character is no digit, no whitespace and no sign. *)
Definition notNumeric (s : string) : bool :=
  match s with
  | EmptyString => true
  | String c _ =>
      match JSGlobal.hexDigitValue c with
      | Some _ => false
      | None =>
          negb (JSString.isWhiteSpace c || Ascii.eqb c "+" || Ascii.eqb c "-")
      end
  end.

End ColourSpec.

(** * Properties *)

(** ** PillNav geometry *)

Section PillNavFacts.

Import PillNav Proximity.

(** Rounding keeps the sign it is given. *)
Lemma binary_round_aux_sign (s : bool) (m e : Z) (l : location) :
  JSNumber.signBit (binary_round_aux JSNumber.prec JSNumber.emax s m e l) = s
  \/ binary_round_aux JSNumber.prec JSNumber.emax s m e l = S754_nan.
Proof.
  unfold binary_round_aux.
  destruct (shr_fexp _ _ m e l) as [mrs' e'].
  destruct (shr_fexp _ _ _ e' loc_Exact) as [mrs'' e''].
  destruct (shr_m mrs'') as [|p|p]; [left; reflexivity| |right; reflexivity].
  destruct (e'' <=? _); left; reflexivity.
Qed.

(** [w * w / 4] is never negative. *)
Lemma quarter_square_sign (w : JSNumber.number) :
  JSNumber.signBit (JSNumber.div (JSNumber.mul w w) (JSNumber.ofZ 4)) = false.
Proof.
  assert (Hsq : JSNumber.signBit (JSNumber.mul w w) = false).
  { destruct w as [[|]|[|]| |s m e]; try reflexivity.
    unfold JSNumber.mul, SFmul.
    destruct (binary_round_aux_sign (xorb s s) (Zpos (m * m)) (e + e) loc_Exact)
      as [H|H]; rewrite H; [destruct s|]; reflexivity. }
  revert Hsq. generalize (JSNumber.mul w w). intros q Hq.
  destruct q as [s|s| |s m e]; simpl in Hq; subst; try reflexivity.
  change (JSNumber.ofZ 4) with (S754_finite false 4503599627370496 (-50)).
  unfold JSNumber.div, SFdiv.
  destruct (SFdiv_core_binary _ _ _ _ _ _) as [[mz ez] lz].
  destruct (binary_round_aux_sign (xorb false false) mz ez lz) as [H|H];
    rewrite H; reflexivity.
Qed.

(** C2: for a pill of width 100 and height 40 the layout computes exactly
    R = 51.25, D = ceil(2R) + 2 = 105, delta = ceil(R - sqrt(R^2 - w^2/4)) + 1
    = 41, an integer, and originY = D - delta (that is 64); these are the
    values written to the circle. *)
Theorem geometry_100_40 :
  let w := JSNumber.ofZ 100 in
  let h := JSNumber.ofZ 40 in
  let g := geometry w h in
  R g = JSNumber.ofDecimal false 5125 (-2) /\
  JSNumber.toString (R g) = "51.25"%string /\
  JSNumber.Math_ceil (JSNumber.mul (JSNumber.ofZ 2) (R g)) = JSNumber.ofZ 103 /\
  D g = JSNumber.ofZ 105 /\
  JSNumber.Math_sqrt
    (JSNumber.sub (JSNumber.mul (R g) (R g))
       (JSNumber.div (JSNumber.mul w w) (JSNumber.ofZ 4)))
    = JSNumber.ofDecimal false 1125 (-2) /\
  delta g = JSNumber.ofZ 41 /\
  originY g = JSNumber.sub (D g) (delta g) /\
  originY g = JSNumber.ofZ 64 /\
  layoutCircle (pillOf w h) =
    Some {| style_width := "105px"; style_height := "105px";
            style_bottom := "-41px"; xPercent := -50; scale := 0;
            transformOrigin := "50% 64px" |}.
Proof.
  cbv zeta. repeat split; vm_compute; reflexivity.
Qed.

(** C3, as stated, fails: for a pill of width 100 and height 0 the layout
    is not skipped; it writes Infinity and NaN lengths. *)
Lemma layout_height_zero_not_skipped :
  layoutCircle (pillOf (JSNumber.ofZ 100) (JSNumber.ofZ 0)) =
    Some {| style_width := "Infinitypx"; style_height := "Infinitypx";
            style_bottom := "-NaNpx"; xPercent := -50; scale := 0;
            transformOrigin := "50% NaNpx" |}.
Proof. vm_compute. reflexivity. Qed.

(** C3, amended: for a pill of height 0, whatever its width, the layout
    returns normally and is not skipped; R is not finite, delta and
    originY are NaN, the lengths written for the bottom offset and the
    transform origin are NaN lengths, and the circle is set to scale 0. *)
Theorem layout_height_zero (w : JSNumber.number) :
  let g := geometry w (JSNumber.ofZ 0) in
  JSNumber.isFinite (R g) = false /\
  JSNumber.isFinite (D g) = false /\
  delta g = JSNumber.NaN /\
  originY g = JSNumber.NaN /\
  exists l,
    layoutCircle (pillOf w (JSNumber.ofZ 0)) = Some l /\
    style_bottom l = "-NaNpx"%string /\
    transformOrigin l = "50% NaNpx"%string /\
    scale l = 0.
Proof.
  cbv zeta. unfold layoutCircle, pillOf, parentElement, width, height.
  unfold geometry; cbn [num_add num_sub num_mul num_div num_lit num_sqrt num_max binary64].
  pose proof (quarter_square_sign w) as Hq. revert Hq.
  generalize (JSNumber.div (JSNumber.mul w w) (JSNumber.ofZ 4)).
  intros q Hq.
  destruct q as [[|]|[|]| |[|] m e]; try discriminate Hq; vm_compute;
    (repeat split; try reflexivity; eexists; repeat split; reflexivity).
Qed.

End PillNavFacts.

(** ** The linear curve at its end points, in binary64 *)

Module Binary64Facts.

Lemma div_core_self (m : positive) (e : Z) :
  SFdiv_core_binary JSNumber.prec JSNumber.emax (Zpos m) e (Zpos m) e
  = (2 ^ 53, -53, loc_Exact).
Proof.
  unfold SFdiv_core_binary.
  replace (Zdigits2 (Z.pos m) + e - (Zdigits2 (Z.pos m) + e)) with 0 by lia.
  replace (e - e) with 0 by lia.
  change (Z.min (fexp JSNumber.prec JSNumber.emax 0) 0) with (-53).
  change (0 - -53) with 53.
  cbv iota beta.
  rewrite Z.shiftl_mul_pow2 by lia.
  rewrite (surjective_pairing (Z.div_eucl _ _)).
  change (fst (Z.div_eucl (Z.pos m * 2 ^ 53) (Z.pos m)))
    with ((Z.pos m * 2 ^ 53) / Z.pos m).
  change (snd (Z.div_eucl (Z.pos m * 2 ^ 53) (Z.pos m)))
    with ((Z.pos m * 2 ^ 53) mod Z.pos m).
  rewrite (Z.mul_comm (Z.pos m)), Z.div_mul, Z.mod_mul by lia.
  unfold new_location. destruct (Z.even (Z.pos m)); reflexivity.
Qed.

(** A finite number other than zero divided by itself is exactly 1. *)
Lemma div_self (s : bool) (m : positive) (e : Z) :
  JSNumber.div (S754_finite s m e) (S754_finite s m e) = JSNumber.ofZ 1.
Proof.
  unfold JSNumber.div, SFdiv. rewrite div_core_self.
  destruct s; vm_compute; reflexivity.
Qed.

(** For every finite positive radius the linear weight evaluates, in
    binary64, to exactly 1 at distance 0 and to exactly 0 at the radius,
    whatever the host's exponential. *)
Lemma linear_end_points (Math_exp : JSNumber.number -> JSNumber.number)
    (m : positive) (e : Z) :
  @calculateFalloff _ binary64 (Proximity.host_exp Math_exp)
    (S754_finite false m e) "linear" (JSNumber.ofZ 0) = JSNumber.ofZ 1 /\
  @calculateFalloff _ binary64 (Proximity.host_exp Math_exp)
    (S754_finite false m e) "linear" (S754_finite false m e) = JSNumber.ofZ 0.
Proof.
  unfold calculateFalloff. cbn [String.eqb Ascii.eqb Bool.eqb].
  cbn [num_min num_max num_sub num_div num_lit binary64]. split.
  - vm_compute. reflexivity.
  - rewrite div_self. vm_compute. reflexivity.
Qed.

End Binary64Facts.

(** ** The falloff curves over the real numbers *)

Section FalloffCurves.

Local Open Scope R_scope.

Variable radius : R.
Hypothesis radius_pos : 0 < radius.

(** On [0, radius] the linear weight is [1 - d / radius], unclamped. *)
Lemma linear_weight (d : R) :
  0 <= d <= radius ->
  calculateFalloff radius "linear" d = 1 - d / radius.
Proof.
  intros [H0 H1]. unfold calculateFalloff. simpl.
  assert (0 <= d / radius <= 1).
  { split.
    - apply Rmult_le_pos; [assumption|]. left. now apply Rinv_0_lt_compat.
    - apply Rmult_le_reg_r with radius; [assumption|].
      unfold Rdiv. rewrite Rmult_assoc, Rinv_l by lra. lra. }
  rewrite Rmax_left by lra. rewrite Rmin_left by lra. reflexivity.
Qed.

(** The gaussian weight is the exponential of a non-positive quantity. *)
Lemma gaussian_weight (d : R) :
  calculateFalloff radius "gaussian" d
  = exp (- ((d / (radius / 2)) * (d / (radius / 2))) / 2).
Proof. reflexivity. Qed.

End FalloffCurves.





(** ** The frame callback *)

Module FrameFacts.

Import Proximity.

Lemma array_get_set {A} (i k : nat) (v : A) (a : list (option A)) :
  array_get (array_set i v a) k = if Nat.eqb k i then Some v else array_get a k.
Proof.
  revert k a. induction i as [|i IH]; intros k a.
  - destruct a as [|o a]; destruct k as [|k]; try reflexivity.
    unfold array_get. simpl. now destruct k.
  - destruct a as [|o a]; destruct k as [|k]; try reflexivity.
    + unfold array_get in *. simpl. rewrite IH. unfold array_get.
      destruct (Nat.eqb k i); [reflexivity|]. now destruct k.
    + unfold array_get in *. simpl. apply IH.
Qed.

Section Frame.

Variable Math_exp : JSNumber.number -> JSNumber.number.
Variable props : Props.
Variable mouse : Position.

(** What the callback does to an element depends on neither its index nor
    the cache. *)
Lemma animateLetter_element (i j : nat) (r : option LetterElement)
    (c c' : list (option string)) :
  fst (animateLetter Math_exp props mouse i r c)
  = fst (animateLetter Math_exp props mouse j r c').
Proof.
  unfold animateLetter. destruct r as [el|]; [|reflexivity].
  destruct (num_ge _ _); reflexivity.
Qed.

Lemma forEachLetter_element (refs : list (option LetterElement)) :
  forall (i k : nat) (cache : list (option string)),
    nth_error (fst (forEachLetter Math_exp props mouse i refs cache)) k
    = option_map (fun r => fst (animateLetter Math_exp props mouse (i + k) r cache))
        (nth_error refs k).
Proof.
  induction refs as [|r refs IH]; intros i k cache.
  - destruct k; reflexivity.
  - simpl.
    destruct (animateLetter Math_exp props mouse i r cache) as [el cache1] eqn:E1.
    destruct (forEachLetter Math_exp props mouse (S i) refs cache1) as [rest cache2] eqn:E2.
    destruct k as [|k]; simpl.
    + rewrite Nat.add_0_r, E1. reflexivity.
    + change rest with (fst (rest, cache2)). rewrite <- E2, IH.
      destruct (nth_error refs k) as [r'|]; [|reflexivity]. simpl.
      f_equal. apply animateLetter_element.
Qed.

(** A letter that is outside the radius, or not mounted, leaves its cache
    entry alone, and other letters never write it. *)
Lemma forEachLetter_cache (refs : list (option LetterElement)) :
  forall (i k : nat) (cache : list (option string)),
    (forall j r, nth_error refs j = Some r -> (i + j)%nat = k -> keepsEntry props mouse r) ->
    array_get (snd (forEachLetter Math_exp props mouse i refs cache)) k
    = array_get cache k.
Proof.
  induction refs as [|r refs IH]; intros i k cache Hk.
  - reflexivity.
  - simpl.
    destruct (animateLetter Math_exp props mouse i r cache) as [el cache1] eqn:E1.
    destruct (forEachLetter Math_exp props mouse (S i) refs cache1) as [rest cache2] eqn:E2.
    simpl. change cache2 with (snd (rest, cache2)). rewrite <- E2, IH.
    + unfold animateLetter in E1. destruct r as [e|].
      * destruct (num_ge (letterDistance props mouse e) (radius props)) eqn:Hge.
        -- now inversion E1.
        -- inversion E1; subst. rewrite array_get_set.
           destruct (Nat.eqb k i) eqn:Hki; [|reflexivity].
           apply Nat.eqb_eq in Hki. subst k.
           specialize (Hk 0%nat (Some e) eq_refl (Nat.add_0_r i)).
           unfold keepsEntry in Hk. rewrite Hk in Hge. discriminate Hge.
      * now inversion E1.
    + intros j r' Hj Hij. apply (Hk (S j) r'); [exact Hj|lia].
Qed.

End Frame.

End FrameFacts.



(** ** Settings: parsing and formatting *)

Module SettingsFacts.

Import JSString Proximity.

Lemma Map_set_keys (k : string) (v : JSNumber.number) (m : JSMap) (k' : string) :
  In k' (map fst (Map_set k v m)) <-> k' = k \/ In k' (map fst m).
Proof.
  induction m as [|[k0 v0] m IH]; simpl.
  - intuition.
  - destruct (String.eqb k0 k) eqn:E; simpl.
    + apply String.eqb_eq in E. subst. intuition.
    + rewrite IH. intuition.
Qed.

Lemma Map_new_keys_from (pairs : list (string * JSNumber.number)) :
  forall (m : JSMap) (k : string),
    In k (map fst (fold_left (fun m kv => Map_set (fst kv) (snd kv) m) pairs m))
    <-> In k (map fst m) \/ In k (map fst pairs).
Proof.
  induction pairs as [|[k0 v0] pairs IH]; intros m k; simpl.
  - intuition.
  - rewrite IH, Map_set_keys. intuition.
Qed.

(** The keys of [new Map(pairs)] are the first components of [pairs]. *)
Lemma Map_new_keys (pairs : list (string * JSNumber.number)) (k : string) :
  In k (map fst (Map_new pairs)) <-> In k (map fst pairs).
Proof.
  unfold Map_new. rewrite Map_new_keys_from. simpl. intuition.
Qed.

Lemma Map_get_None (m : JSMap) (k : string) :
  Map_get m k = None <-> ~ In k (map fst m).
Proof.
  induction m as [|[k0 v0] m IH]; simpl.
  - intuition.
  - destruct (String.eqb k0 k) eqn:E.
    + apply String.eqb_eq in E. subst. split; [discriminate|]. intuition.
    + apply String.eqb_neq in E. rewrite IH. intuition.
Qed.

Lemma parsedSettings_axes (from to : string) :
  map axis (parsedSettings from to) = map fst (parseSettings from).
Proof.
  unfold parsedSettings. rewrite map_map. reflexivity.
Qed.

Lemma removeQuotes_quoteFree (s : string) : quoteFree (removeQuotes s) = true.
Proof.
  unfold quoteFree, chars.
  induction s as [|c s IH]; simpl; [reflexivity|].
  destruct (isQuote c) eqn:E; simpl; [exact IH|].
  rewrite E. exact IH.
Qed.

(** With equal end points the interpolation prints the start value, for
    every finite weight, unless the start value is an infinity. *)
Lemma interpolation_idle (v w : JSNumber.number) :
  JSNumber.isFinite w = true ->
  (JSNumber.isFinite v || JSNumber.isNaN v) = true ->
  JSNumber.toString (v + (v - v) * w)%js = JSNumber.toString v.
Proof.
  intros Hw Hv. cbn [num_add num_sub num_mul binary64].
  destruct v as [sv|sv| |sv mv ev]; try discriminate Hv.
  - destruct sv, w as [[|]|[|]| |[|] mw ew]; try discriminate Hw; reflexivity.
  - reflexivity.
  - assert (Hz : JSNumber.sub (S754_finite sv mv ev) (S754_finite sv mv ev)
                 = S754_zero false).
    { unfold JSNumber.sub, SFsub. rewrite Z.sub_diag. reflexivity. }
    rewrite Hz.
    destruct w as [sw|sw| |sw mw ew]; try discriminate Hw; reflexivity.
Qed.

(** With equal end points the printed value is the same at every finite
    weight, whatever the start value. *)
Lemma interpolation_constant (v w1 w2 : JSNumber.number) :
  JSNumber.isFinite w1 = true -> JSNumber.isFinite w2 = true ->
  JSNumber.toString (v + (v - v) * w1)%js = JSNumber.toString (v + (v - v) * w2)%js.
Proof.
  intros H1 H2.
  destruct v as [sv|sv| |sv mv ev].
  - rewrite !interpolation_idle by (assumption || reflexivity). reflexivity.
  - cbn [num_add num_sub num_mul binary64].
    destruct sv, w1 as [[|]|[|]| |[|] m1 e1], w2 as [[|]|[|]| |[|] m2 e2];
      try discriminate H1; try discriminate H2; reflexivity.
  - reflexivity.
  - rewrite !interpolation_idle by (assumption || reflexivity). reflexivity.
Qed.

End SettingsFacts.


(** C6: parsing the specification ['wght' 400] and formatting the
    interpolated settings at weight 0 gives back the string ['wght' 400];
    with the [to] specification ['wght' 800], formatting at weight 1 gives
    ['wght' 800]. *)
Theorem parse_format_round_trip :
  Proximity.newSettings (Proximity.parsedSettings "'wght' 400" "'wght' 800")
    (JSNumber.ofZ 0) = "'wght' 400"%string /\
  Proximity.newSettings (Proximity.parsedSettings "'wght' 400" "'wght' 400")
    (JSNumber.ofZ 0) = "'wght' 400"%string /\
  Proximity.newSettings (Proximity.parsedSettings "'wght' 400" "")
    (JSNumber.ofZ 0) = "'wght' 400"%string /\
  Proximity.newSettings (Proximity.parsedSettings "'wght' 400" "'wght' 800")
    (JSNumber.ofZ 1) = "'wght' 800"%string.
Proof. repeat split; vm_compute; reflexivity. Qed.

(** ** Quotes around axis names *)

Module QuoteFacts.

Import JSString Proximity.

Local Open Scope string_scope.

Lemma plainChar_facts (c : ascii) :
  plainChar c = true ->
  isWhiteSpace c = false /\ isQuote c = false /\
  Ascii.eqb c "," = false /\ Ascii.eqb c " " = false.
Proof.
  unfold plainChar. intros H.
  apply negb_true_iff in H. apply orb_false_iff in H. destruct H as [H Hc].
  apply orb_false_iff in H. destruct H as [Hw Hq].
  repeat split; try assumption.
  destruct (Ascii.eqb c " ") eqn:E; [|reflexivity].
  apply Ascii.eqb_eq in E. subst c. discriminate Hw.
Qed.

Lemma split_absent (sep : ascii) (s : string) :
  forallb (fun c => negb (Ascii.eqb c sep)) (chars s) = true ->
  split sep s = [s].
Proof.
  unfold chars. induction s as [|c s IH]; simpl; [reflexivity|].
  intros H. apply andb_true_iff in H. destruct H as [Hc Hs].
  apply negb_true_iff in Hc. rewrite Hc, (IH Hs). reflexivity.
Qed.

Lemma split_first (sep : ascii) (t r : string) :
  forallb (fun c => negb (Ascii.eqb c sep)) (chars t) = true ->
  split sep (t ++ String sep r) = t :: split sep r.
Proof.
  unfold chars. induction t as [|c t IH]; simpl.
  - intros _. now rewrite Ascii.eqb_refl.
  - intros H. apply andb_true_iff in H. destruct H as [Hc Ht].
    apply negb_true_iff in Hc. rewrite Hc, (IH Ht). reflexivity.
Qed.

Lemma trimEnd_solid (v : string) :
  forallb (fun c => negb (isWhiteSpace c)) (chars v) = true -> trimEnd v = v.
Proof.
  unfold chars. induction v as [|c v IH]; simpl; [reflexivity|].
  intros H. apply andb_true_iff in H. destruct H as [Hc Hv].
  apply negb_true_iff in Hc. rewrite (IH Hv), Hc. now destruct v.
Qed.

Lemma trimEnd_before_solid (a v : string) :
  v <> EmptyString ->
  forallb (fun c => negb (isWhiteSpace c)) (chars v) = true ->
  trimEnd (a ++ v) = a ++ v.
Proof.
  intros Hne Hv. induction a as [|c a IH]; simpl.
  - now apply trimEnd_solid.
  - rewrite IH. destruct (a ++ v) eqn:E; [|reflexivity].
    destruct a; simpl in E; [contradiction|discriminate].
Qed.

Lemma forallb_weaken {A} (P Q : A -> bool) (l : list A) :
  (forall a, P a = true -> Q a = true) ->
  forallb P l = true -> forallb Q l = true.
Proof.
  intros HPQ. induction l as [|a l IH]; simpl; [reflexivity|].
  intros H. apply andb_true_iff in H. destruct H as [Ha Hl].
  now rewrite (HPQ a Ha), (IH Hl).
Qed.

Lemma chars_app (a b : string) : chars (a ++ b) = (chars a ++ chars b)%list.
Proof.
  unfold chars. induction a as [|c a IH]; simpl; [reflexivity|]. now rewrite IH.
Qed.

Lemma append_empty (a : string) : a ++ "" = a.
Proof. induction a as [|c a IH]; simpl; [reflexivity|]. now rewrite IH. Qed.

Lemma append_assoc (a b c : string) : a ++ (b ++ c) = (a ++ b) ++ c.
Proof. induction a as [|x a IH]; simpl; [reflexivity|]. now rewrite IH. Qed.

Lemma removeQuotes_app (a b : string) :
  removeQuotes (a ++ b) = removeQuotes a ++ removeQuotes b.
Proof.
  induction a as [|c a IH]; simpl; [reflexivity|].
  rewrite IH. now destruct (isQuote c).
Qed.

Lemma removeQuotes_plain (n : string) :
  forallb plainChar (chars n) = true -> removeQuotes n = n.
Proof.
  unfold chars. induction n as [|c n IH]; simpl; [reflexivity|].
  intros H. apply andb_true_iff in H. destruct H as [Hc Hn].
  destruct (plainChar_facts c Hc) as (_ & Hq & _). now rewrite Hq, (IH Hn).
Qed.

Lemma removeQuotes_quoted (q : option ascii) (n : string) :
  quoteStyle q -> forallb plainChar (chars n) = true ->
  removeQuotes (quoted q n) = n.
Proof.
  intros Hq Hn. destruct Hq as [->|[->| ->]]; simpl.
  - now apply removeQuotes_plain.
  - rewrite removeQuotes_app, removeQuotes_plain by assumption.
    simpl. now rewrite append_empty.
  - rewrite removeQuotes_app, removeQuotes_plain by assumption.
    simpl. now rewrite append_empty.
Qed.

(** A name written in any of the three styles has no space, no comma and
    no whitespace, and is not empty. *)
Lemma quoted_chars (q : option ascii) (n : string) :
  quoteStyle q -> plainToken n = true ->
  exists c rest,
    quoted q n = String c rest /\ isWhiteSpace c = false /\
    forallb (fun c => negb (Ascii.eqb c " ")) (chars (quoted q n)) = true /\
    forallb (fun c => negb (Ascii.eqb c ",")) (chars (quoted q n)) = true.
Proof.
  intros Hq Hn. unfold plainToken in Hn.
  apply andb_true_iff in Hn. destruct Hn as [Hne Hn].
  assert (Hsp : forallb (fun c => negb (Ascii.eqb c " ")) (chars n) = true).
  { revert Hn. apply forallb_weaken. intros c Hc.
    destruct (plainChar_facts c Hc) as (_ & _ & _ & H). now rewrite H. }
  assert (Hcm : forallb (fun c => negb (Ascii.eqb c ",")) (chars n) = true).
  { revert Hn. apply forallb_weaken. intros c Hc.
    destruct (plainChar_facts c Hc) as (_ & _ & H & _). now rewrite H. }
  destruct Hq as [->|[->| ->]]; simpl.
  - destruct n as [|c n]; [discriminate Hne|]. exists c, n.
    unfold chars in Hn. simpl in Hn. apply andb_true_iff in Hn.
    destruct Hn as [Hc _]. destruct (plainChar_facts c Hc) as (Hw & _).
    repeat split; assumption.
  - eexists _, _. split; [reflexivity|]. split; [reflexivity|].
    change (String "'" (n ++ "'")) with ("'" ++ (n ++ "'")).
    rewrite !chars_app, !forallb_app, Hsp, Hcm. split; reflexivity.
  - eexists _, _. split; [reflexivity|]. split; [reflexivity|].
    change (String doubleQuote (n ++ String doubleQuote ""))
      with (String doubleQuote "" ++ (n ++ String doubleQuote "")).
    rewrite !chars_app, !forallb_app, Hsp, Hcm. split; reflexivity.
Qed.

(** A single pair [name value], the name written in any of the three
    styles, parses to the bare name and the value. *)
Lemma parseSettings_quoted (q : option ascii) (n v : string) :
  quoteStyle q -> plainToken n = true -> plainToken v = true ->
  parseSettings (quoted q n ++ " " ++ v) = [(n, JSNumber.parseFloat v)].
Proof.
  intros Hq Hn Hv.
  destruct (quoted_chars q n Hq Hn) as (c & rest & Hshape & Hw & Hsp & Hcm).
  pose proof Hn as Hn'. pose proof Hv as Hv'.
  unfold plainToken in Hn', Hv'.
  apply andb_true_iff in Hn', Hv'. destruct Hn' as [_ Hnp], Hv' as [Hvne Hvp].
  assert (Hvsp : forallb (fun c => negb (Ascii.eqb c " ")) (chars v) = true).
  { revert Hvp. apply forallb_weaken. intros c' Hc.
    destruct (plainChar_facts c' Hc) as (_ & _ & _ & H). now rewrite H. }
  assert (Hvcm : forallb (fun c => negb (Ascii.eqb c ",")) (chars v) = true).
  { revert Hvp. apply forallb_weaken. intros c' Hc.
    destruct (plainChar_facts c' Hc) as (_ & _ & H & _). now rewrite H. }
  assert (Hvws : forallb (fun c => negb (isWhiteSpace c)) (chars v) = true).
  { revert Hvp. apply forallb_weaken. intros c' Hc.
    destruct (plainChar_facts c' Hc) as (H & _). now rewrite H. }
  assert (Hvne' : v <> "").
  { intros ->. discriminate Hvne. }
  unfold parseSettings, rawPairs.
  rewrite split_absent.
  2:{ rewrite !chars_app, !forallb_app, Hcm, Hvcm. reflexivity. }
  cbn [map].
  assert (Htrim : trim (quoted q n ++ " " ++ v) = quoted q n ++ " " ++ v).
  { unfold trim.
    replace (trimStart (quoted q n ++ " " ++ v)) with (quoted q n ++ " " ++ v).
    - rewrite append_assoc. apply trimEnd_before_solid; assumption.
    - rewrite Hshape. simpl. now rewrite Hw. }
  rewrite Htrim. unfold parsePair.
  change (quoted q n ++ " " ++ v) with (quoted q n ++ String " " v).
  rewrite split_first by assumption.
  rewrite split_absent by assumption.
  simpl. rewrite removeQuotes_quoted by assumption. reflexivity.
Qed.

Lemma parsed_axes_quoteFree (from to : string) (a : VariationAxis) :
  In a (parsedSettings from to) -> quoteFree (axis a) = true.
Proof.
  intros Ha. apply (in_map axis) in Ha.
  rewrite SettingsFacts.parsedSettings_axes in Ha.
  unfold parseSettings in Ha. rewrite SettingsFacts.Map_new_keys in Ha.
  unfold rawPairs in Ha.
  apply in_map_iff in Ha. destruct Ha as [pair [<- Hpair]].
  apply in_map_iff in Hpair. destruct Hpair as [s [<- _]].
  apply SettingsFacts.removeQuotes_quoteFree.
Qed.

End QuoteFacts.



(** ** Rendering of the label *)

Module RenderFacts.

Import JSString Proximity.

Lemma split_nonempty (sep : ascii) (s : string) : split sep s <> [].
Proof.
  destruct s as [|c s]; simpl; [discriminate|].
  destruct (Ascii.eqb c sep); [discriminate|].
  destruct (split sep s); discriminate.
Qed.

(** Rendering the words of a label, word by word, visits the characters of
    the label in order. *)
Lemma renderWords_scan (cache : list (option string)) (s : string) :
  forall wordIndex count letterIndex : nat,
    (wordIndex + List.length (split " " s) = count)%nat ->
    flat_map children (renderWords cache (split " " s) wordIndex count letterIndex)
    = scanLabel cache (chars s) letterIndex.
Proof.
  induction s as [|c s IH]; intros wordIndex count letterIndex Hcount.
  - simpl in *. replace (wordIndex <? count - 1)%nat with false; [reflexivity|].
    symmetry. apply Nat.ltb_ge. lia.
  - simpl split in *. simpl chars. cbn [scanLabel list_ascii_of_string].
    destruct (Ascii.eqb c " ") eqn:E.
    + simpl in Hcount. simpl.
      replace (wordIndex <? count - 1)%nat with true.
      * simpl. f_equal. apply IH. lia.
      * symmetry. apply Nat.ltb_lt.
        pose proof (split_nonempty " " s) as Hne.
        destruct (split " " s); [contradiction|]. simpl in Hcount. lia.
    + pose proof (split_nonempty " " s) as Hne.
      specialize (IH wordIndex count (S letterIndex)).
      destruct (split " " s) as [|w ws]; [contradiction|].
      simpl in Hcount. specialize (IH Hcount).
      simpl in IH |- *.
      destruct (renderLetters cache (chars w) (S letterIndex)) as [letters n].
      simpl in IH |- *. now rewrite IH.
Qed.

Lemma scanLabel_separators (cache : list (option string)) (cs : list ascii) :
  forall i, separatorCount (scanLabel cache cs i) = spaceCount cs.
Proof.
  unfold separatorCount, spaceCount.
  induction cs as [|c cs IH]; intros i; simpl; [reflexivity|].
  destruct (Ascii.eqb c " "); simpl; now rewrite IH.
Qed.

Lemma scanLabel_glyphs (cache : list (option string)) (cs : list ascii) :
  forall i,
    glyphs (scanLabel cache cs i) = filter (fun c => negb (Ascii.eqb c " ")) cs.
Proof.
  induction cs as [|c cs IH]; intros i; simpl; [reflexivity|].
  destruct (Ascii.eqb c " "); simpl; now rewrite IH.
Qed.

Lemma scanLabel_refs (cache : list (option string)) (cs : list ascii) :
  forall i,
    registeredRefs (scanLabel cache cs i)
    = seq i (List.length (glyphs (scanLabel cache cs i))).
Proof.
  induction cs as [|c cs IH]; intros i; simpl; [reflexivity|].
  destruct (Ascii.eqb c " "); simpl; now rewrite IH.
Qed.

End RenderFacts.

(** C8, as stated, fails: in the label of an a, two spaces and a b the run of
    two spaces is rendered as two separators, not one. *)
Lemma double_space_two_separators :
  ~ Proximity.runsAreSingleSeparators "a  b".
Proof.
  intros [Hruns _]. vm_compute in Hruns. discriminate Hruns.
Qed.

(** C8, amended: for every label the rendered spans are the characters of
    the label in order, every space character being one separator span (a
    literal non-breaking space with no glyph index and no ref, hence never
    visited by the frame callback) and every other character a letter span;
    so there are as many separators as space characters, the glyphs are the
    characters other than the space, and their indices, the ones registered
    in [letterRefs], run consecutively from 0. *)
Theorem label_splitting (label : string) (cache : list (option string)) :
  Proximity.spans label cache
  = Proximity.scanLabel cache (JSString.chars label) 0 /\
  Proximity.separatorCount (Proximity.spans label cache)
  = Proximity.spaceCount (JSString.chars label) /\
  Proximity.glyphs (Proximity.spans label cache)
  = filter (fun c => negb (Ascii.eqb c " ")) (JSString.chars label) /\
  Proximity.registeredRefs (Proximity.spans label cache)
  = seq 0 (List.length (Proximity.glyphs (Proximity.spans label cache))).
Proof.
  assert (H : Proximity.spans label cache
              = Proximity.scanLabel cache (JSString.chars label) 0).
  { unfold Proximity.spans, Proximity.render.
    apply RenderFacts.renderWords_scan. reflexivity. }
  rewrite H. repeat split.
  - apply RenderFacts.scanLabel_separators.
  - apply RenderFacts.scanLabel_glyphs.
  - apply RenderFacts.scanLabel_refs.
Qed.

(** ** Teardown of the hooks *)

Module LifecycleFacts.

Import Proximity Lifecycle.

Section Hooks.

Variable Math_exp : JSNumber.number -> JSNumber.number.
Variable props : Props.

Lemma mount_establishes (st : State) :
  mountedInv (step Math_exp props (initial st) Mount).
Proof.
  split; [reflexivity|]. exists 0%nat. split; reflexivity.
Qed.

Lemma mounted_step (w : World) (ev : Event) :
  whileMounted ev = true -> mountedInv w ->
  mountedInv (step Math_exp props w ev).
Proof.
  intros Hev [Hl [id [Hid Hreq]]].
  destruct ev as [| | |cx cy|cx cy|]; try discriminate Hev; simpl.
  - unfold stopLoop, startLoop, cancelAnimationFrame. rewrite Hid. simpl.
    rewrite Hreq. simpl. rewrite Nat.eqb_refl. simpl.
    split; [exact Hl|]. eexists. split; reflexivity.
  - unfold dispatch. rewrite Hl. simpl. split; [exact Hl|].
    exists id. split; assumption.
  - unfold dispatch. rewrite Hl. simpl. split; [exact Hl|].
    exists id. split; assumption.
  - unfold animationFrame. rewrite Hreq. simpl. split; [exact Hl|].
    eexists. split; reflexivity.
Qed.

Lemma mounted_run (evs : list Event) :
  forall w, forallb whileMounted evs = true -> mountedInv w ->
            mountedInv (run Math_exp props evs w).
Proof.
  induction evs as [|ev evs IH]; intros w Hall Hw; [exact Hw|].
  simpl in Hall. apply andb_true_iff in Hall. destruct Hall as [Hev Hall].
  simpl. apply IH; [exact Hall|]. now apply mounted_step.
Qed.

Lemma unmount_releases (w : World) :
  mountedInv w ->
  idleInv (step Math_exp props w Unmount) /\
  engine (step Math_exp props w Unmount) = engine w.
Proof.
  intros [Hl [id [Hid Hreq]]]. simpl.
  unfold stopLoop, unlisten, cancelAnimationFrame, removeEventListener, setListeners.
  simpl. rewrite Hid, Hl, Hreq. simpl. rewrite Nat.eqb_refl.
  repeat split.
Qed.

Lemma idle_step (w : World) (ev : Event) :
  fromBrowser ev = true -> idleInv w ->
  idleInv (step Math_exp props w ev) /\
  engine (step Math_exp props w ev) = engine w.
Proof.
  intros Hev [Hl Hreq].
  destruct ev as [| | |cx cy|cx cy|]; try discriminate Hev; simpl.
  - unfold dispatch. rewrite Hl. simpl. repeat split; assumption.
  - unfold dispatch. rewrite Hl. simpl. repeat split; assumption.
  - unfold animationFrame. rewrite Hreq. simpl. repeat split. exact Hl.
Qed.

Lemma idle_run (evs : list Event) :
  forall w, forallb fromBrowser evs = true -> idleInv w ->
            idleInv (run Math_exp props evs w) /\
            engine (run Math_exp props evs w) = engine w.
Proof.
  induction evs as [|ev evs IH]; intros w Hall Hw; [now split|].
  simpl in Hall. apply andb_true_iff in Hall. destruct Hall as [Hev Hall].
  destruct (idle_step w ev Hev Hw) as [Hidle Heng].
  destruct (IH _ Hall Hidle) as [Hidle' Heng'].
  simpl. split; [exact Hidle'|]. now rewrite Heng'.
Qed.

Lemma run_session (st : State) (pre : list Event) :
  run Math_exp props (Mount :: pre ++ [Unmount]) (initial st)
  = step Math_exp props
      (run Math_exp props pre (step Math_exp props (initial st) Mount)) Unmount.
Proof.
  unfold run. cbn [fold_left]. rewrite fold_left_app. reflexivity.
Qed.

End Hooks.

End LifecycleFacts.

(** C9: let the component mount, live through any renders, pointer events
    and frames, and unmount.  At that moment the pending frame request has
    been cancelled and both listeners are gone; and whatever pointer moves,
    touch moves and display refreshes follow, the letters, their styles and
    the cache of interpolated settings stay exactly as the unmount left
    them, and nothing is registered or scheduled again. *)
Theorem teardown_silences
    (Math_exp : JSNumber.number -> JSNumber.number) (props : Proximity.Props)
    (st : Proximity.State) (pre post : list Lifecycle.Event) :
  forallb Lifecycle.whileMounted pre = true ->
  forallb Lifecycle.fromBrowser post = true ->
  let unmounted :=
    Lifecycle.run Math_exp props (Lifecycle.Mount :: pre ++ [Lifecycle.Unmount])
      (Lifecycle.initial st) in
  Lifecycle.frameRequests unmounted = [] /\
  Lifecycle.listeners unmounted = [] /\
  Lifecycle.engine (Lifecycle.run Math_exp props post unmounted)
  = Lifecycle.engine unmounted /\
  Lifecycle.frameRequests (Lifecycle.run Math_exp props post unmounted) = [] /\
  Lifecycle.listeners (Lifecycle.run Math_exp props post unmounted) = [].
Proof.
  intros Hpre Hpost unmounted.
  assert (Hidle : Lifecycle.idleInv unmounted).
  { unfold unmounted. rewrite LifecycleFacts.run_session.
    apply LifecycleFacts.unmount_releases.
    apply LifecycleFacts.mounted_run; [exact Hpre|].
    apply LifecycleFacts.mount_establishes. }
  destruct (LifecycleFacts.idle_run Math_exp props post unmounted Hpost Hidle)
    as [[Hl Hr] He].
  destruct Hidle as [Hl0 Hr0]. repeat split; assumption.
Qed.

Lemma teardown_silences_hero :
  let unmounted :=
    Lifecycle.run Sample.noExp Sample.linearProps
      (Lifecycle.Mount :: Sample.beforeUnmount ++ [Lifecycle.Unmount])
      (Lifecycle.initial Sample.oneLetter) in
  Lifecycle.frameRequests unmounted = [] /\
  Lifecycle.listeners unmounted = [] /\
  Lifecycle.engine
    (Lifecycle.run Sample.noExp Sample.linearProps Sample.afterUnmount unmounted)
  = Lifecycle.engine unmounted /\
  Lifecycle.frameRequests
    (Lifecycle.run Sample.noExp Sample.linearProps Sample.afterUnmount unmounted) = [] /\
  Lifecycle.listeners
    (Lifecycle.run Sample.noExp Sample.linearProps Sample.afterUnmount unmounted) = [].
Proof.
  apply (teardown_silences Sample.noExp Sample.linearProps Sample.oneLetter
           Sample.beforeUnmount Sample.afterUnmount); reflexivity.
Defined.

(** While the component of the sample session is mounted its frame does
    write: the letter under the pointer goes from ['wght' 733] to
    ['wght' 800] before the unmount. *)
Example mounted_session_writes :
  map (option_map Proximity.fontVariationSettings)
    (Proximity.letterRefs
       (Lifecycle.engine
          (Lifecycle.run Sample.noExp Sample.linearProps
             (Lifecycle.Mount :: Sample.beforeUnmount)
             (Lifecycle.initial Sample.oneLetter))))
  = [Some "'wght' 800"%string].
Proof. vm_compute. reflexivity. Qed.

(** * Further properties *)

(** ** Integers in binary64 and back *)

Module IntegerFacts.

Lemma digits2_size (p : positive) : digits2_pos p = Pos.size p.
Proof. induction p; simpl; congruence. Qed.

Lemma digits2_iter (p k : positive) :
  digits2_pos (Pos.iter xO p k) = (digits2_pos p + k)%positive.
Proof.
  induction k as [|k IH] using Pos.peano_ind.
  - simpl. lia.
  - rewrite Pos.iter_succ. simpl. rewrite IH. lia.
Qed.

Lemma iter_xO_value (p k : positive) :
  Zpos (Pos.iter xO p k) = Zpos p * 2 ^ Zpos k.
Proof.
  induction k as [|k IH] using Pos.peano_ind.
  - simpl. lia.
  - rewrite Pos.iter_succ, Pos2Z.inj_xO, IH, Pos2Z.inj_succ, Z.pow_succ_r by lia. lia.
Qed.

Lemma digits2_bound (p : positive) (n : Z) :
  0 <= n -> Zpos p < 2 ^ n -> Zpos (digits2_pos p) <= n.
Proof.
  intros Hn Hp. rewrite digits2_size.
  destruct (Z_le_gt_dec (Zpos (Pos.size p)) n) as [H|H]; [exact H|exfalso].
  pose proof (Pos.size_le p) as Hle.
  assert (Hz : 2 ^ Zpos (Pos.size p) <= 2 * Zpos p).
  { change 2 with (Zpos 2) at 1. rewrite <- Pos2Z.inj_pow.
    change (2 * Zpos p) with (Zpos p~0). apply Pos2Z.pos_le_pos. exact Hle. }
  assert (Hm : 2 ^ (n + 1) <= 2 ^ Zpos (Pos.size p)) by (apply Z.pow_le_mono_r; lia).
  rewrite Z.pow_add_r in Hm by lia. lia.
Qed.

(** A significand of 53 bits with an exponent in range is already a
    binary64 value: rounding leaves it alone. *)
Lemma binary_round_aux_exact (s : bool) (m : positive) (e : Z) :
  Zpos (digits2_pos m) = 53 -> -1074 <= e <= 971 ->
  binary_round_aux JSNumber.prec JSNumber.emax s (Zpos m) e loc_Exact
  = S754_finite s m e.
Proof.
  intros Hd He. unfold binary_round_aux, shr_fexp, Zdigits2, fexp, emin.
  unfold JSNumber.prec, JSNumber.emax. rewrite Hd.
  replace (Z.max (53 + e - 53) (3 - 1024 - 53) - e) with 0 by lia.
  cbn [shr shr_record_of_loc shr_m loc_of_shr_record round_nearest_even Zdigits2].
  rewrite Hd.
  replace (Z.max (53 + e - 53) (3 - 1024 - 53) - e) with 0 by lia.
  cbn [shr shr_record_of_loc shr_m].
  replace (e <=? 1024 - 53) with true by (symmetry; apply Z.leb_le; lia).
  reflexivity.
Qed.

Lemma ofZ_small (p : positive) :
  Zpos p < 2 ^ 32 ->
  exists k : positive,
    Zpos k = 53 - Zpos (digits2_pos p) /\
    JSNumber.ofZ (Zpos p) = S754_finite false (Pos.iter xO p k) (Zneg k).
Proof.
  intros Hp.
  pose proof (digits2_bound p 32 ltac:(lia) Hp) as Hd.
  unfold JSNumber.ofZ, binary_normalize, binary_round, shl_align, fexp, emin.
  unfold JSNumber.prec, JSNumber.emax.
  replace (Z.max (Zpos (digits2_pos p) + 0 - 53) (3 - 1024 - 53) - 0)
    with (Zpos (digits2_pos p) - 53) by lia.
  replace (Z.max (Zpos (digits2_pos p) + 0 - 53) (3 - 1024 - 53))
    with (Zpos (digits2_pos p) - 53) by lia.
  destruct (Zpos (digits2_pos p) - 53) as [|q|k] eqn:Hk; try lia.
  exists k. split; [lia|].
  apply binary_round_aux_exact.
  - rewrite digits2_iter. lia.
  - lia.
Qed.

(** A positive integer below 2^32 survives the conversion to a number and
    back to a 32-bit integer, up to the wrap into the signed range. *)
Lemma ToInt32_ofZ (p : positive) :
  Zpos p < 2 ^ 32 ->
  JSGlobal.ToInt32 (JSNumber.ofZ (Zpos p)) = ColourSpec.wrap32 (Zpos p).
Proof.
  intros Hp. destruct (ofZ_small p Hp) as [k [Hk ->]].
  unfold JSGlobal.ToInt32, ColourSpec.wrap32.
  rewrite iter_xO_value. rewrite Z.pow_pos_fold.
  rewrite Z.div_mul by (apply Z.pow_nonzero; lia). reflexivity.
Qed.

End IntegerFacts.

(** ** hexToRgb *)

Module ColourFacts.

Import JSGlobal Particles ColourSpec.

Lemma hexDigit_range (c : ascii) (v : Z) :
  hexDigitValue c = Some v -> 0 <= v <= 15.
Proof.
  unfold hexDigitValue. set (n := Z.of_N (N_of_ascii c)).
  destruct ((48 <=? n) && (n <=? 57)) eqn:E1.
  { intros H. inversion H. apply andb_true_iff in E1. lia. }
  destruct ((97 <=? n) && (n <=? 102)) eqn:E2.
  { intros H. inversion H. apply andb_true_iff in E2. lia. }
  destruct ((65 <=? n) && (n <=? 70)) eqn:E3.
  { intros H. inversion H. apply andb_true_iff in E3. lia. }
  discriminate.
Qed.

(** Case analysis over the 256 code units. *)
Ltac each_char c := destruct c as [[] [] [] [] [] [] [] []].

Lemma hexDigit_plain (c : ascii) (v : Z) :
  hexDigitValue c = Some v ->
  JSString.isWhiteSpace c = false /\
  (Ascii.eqb c "x" || Ascii.eqb c "X") = false /\
  forall r, JSNumber.splitSign (String c r) = (false, String c r).
Proof.
  intros H. each_char c; try discriminate H; repeat split.
Qed.

Lemma stripHexPrefix_digits (c1 c2 : ascii) (v2 : Z) (r : string) :
  hexDigitValue c2 = Some v2 ->
  stripHexPrefix (String c1 (String c2 r)) = String c1 (String c2 r).
Proof.
  intros H2. destruct (hexDigit_plain c2 v2 H2) as (_ & Hx & _).
  unfold stripHexPrefix. each_char c1; try reflexivity. now rewrite Hx.
Qed.


(** Six digits are read exactly. *)
Lemma parse_six (d1 d2 d3 d4 d5 d6 : ascii) (v1 v2 v3 v4 v5 v6 : Z) :
  hexDigitValue d1 = Some v1 -> hexDigitValue d2 = Some v2 ->
  hexDigitValue d3 = Some v3 -> hexDigitValue d4 = Some v4 ->
  hexDigitValue d5 = Some v5 -> hexDigitValue d6 = Some v6 ->
  ToInt32 (parseInt16
    (String d1 (String d2 (String d3 (String d4 (String d5 (String d6 EmptyString)))))))
  = 1048576 * v1 + 65536 * v2 + 4096 * v3 + 256 * v4 + 16 * v5 + v6.
Proof.
  intros H1 H2 H3 H4 H5 H6.
  pose proof (hexDigit_range _ _ H1). pose proof (hexDigit_range _ _ H2).
  pose proof (hexDigit_range _ _ H3). pose proof (hexDigit_range _ _ H4).
  pose proof (hexDigit_range _ _ H5). pose proof (hexDigit_range _ _ H6).
  destruct (hexDigit_plain d1 v1 H1) as (Hw & _ & Hs).
  unfold parseInt16. cbn [JSString.trimStart]. rewrite Hw, Hs.
  rewrite (stripHexPrefix_digits d1 d2 v2 _ H2).
  cbn [hexPrefix]. rewrite H1, H2, H3, H4, H5, H6.
  cbn [Z.eqb Z.add Pos.add Pos.succ].
  set (n := 16 * (16 * (16 * (16 * (16 * (16 * 0 + v1) + v2) + v3) + v4) + v5) + v6).
  assert (Hn : n = 1048576 * v1 + 65536 * v2 + 4096 * v3 + 256 * v4 + 16 * v5 + v6)
    by (unfold n; lia).
  destruct (n =? 0) eqn:E.
  - apply Z.eqb_eq in E. cbn [ToInt32]. lia.
  - apply Z.eqb_neq in E. destruct n as [|p|p] eqn:Hp; try lia.
    assert (Hb : Z.pos p < 16777216) by lia.
    rewrite IntegerFacts.ToInt32_ofZ by (change (2 ^ 32) with 4294967296; lia).
    unfold wrap32. change (2 ^ 32) with 4294967296. change (2 ^ 31) with 2147483648.
    rewrite Z.mod_small by lia.
    replace (2147483648 <=? Z.pos p) with false by (symmetry; apply Z.leb_gt; lia).
    exact Hn.
Qed.


(** Eight digits are read exactly and wrapped into the signed range. *)
Lemma parse_eight (d1 d2 d3 d4 d5 d6 d7 d8 : ascii) (v1 v2 v3 v4 v5 v6 v7 v8 : Z) :
  hexDigitValue d1 = Some v1 -> hexDigitValue d2 = Some v2 ->
  hexDigitValue d3 = Some v3 -> hexDigitValue d4 = Some v4 ->
  hexDigitValue d5 = Some v5 -> hexDigitValue d6 = Some v6 ->
  hexDigitValue d7 = Some v7 -> hexDigitValue d8 = Some v8 ->
  ToInt32 (parseInt16
    (String d1 (String d2 (String d3 (String d4
      (String d5 (String d6 (String d7 (String d8 EmptyString)))))))))
  = wrap32 (268435456 * v1 + 16777216 * v2 + 1048576 * v3 + 65536 * v4
            + 4096 * v5 + 256 * v6 + 16 * v7 + v8).
Proof.
  intros H1 H2 H3 H4 H5 H6 H7 H8.
  pose proof (hexDigit_range _ _ H1). pose proof (hexDigit_range _ _ H2).
  pose proof (hexDigit_range _ _ H3). pose proof (hexDigit_range _ _ H4).
  pose proof (hexDigit_range _ _ H5). pose proof (hexDigit_range _ _ H6).
  pose proof (hexDigit_range _ _ H7). pose proof (hexDigit_range _ _ H8).
  destruct (hexDigit_plain d1 v1 H1) as (Hw & _ & Hs).
  unfold parseInt16. cbn [JSString.trimStart]. rewrite Hw, Hs.
  rewrite (stripHexPrefix_digits d1 d2 v2 _ H2).
  cbn [hexPrefix]. rewrite H1, H2, H3, H4, H5, H6, H7, H8.
  cbn [Z.eqb Z.add Pos.add Pos.succ].
  set (n := 16 * (16 * (16 * (16 * (16 * (16 * (16 * (16 * 0 + v1) + v2) + v3)
             + v4) + v5) + v6) + v7) + v8).
  assert (Hn : n = 268435456 * v1 + 16777216 * v2 + 1048576 * v3 + 65536 * v4
                   + 4096 * v5 + 256 * v6 + 16 * v7 + v8) by (unfold n; lia).
  rewrite <- Hn.
  destruct (n =? 0) eqn:E.
  - apply Z.eqb_eq in E. rewrite E. reflexivity.
  - apply Z.eqb_neq in E. destruct n as [|p|p] eqn:Hp; try lia.
    apply IntegerFacts.ToInt32_ofZ. change (2 ^ 32) with 4294967296. lia.
Qed.

Lemma low_byte (n : Z) : 0 <= bitAnd n 255 <= 255.
Proof.
  unfold bitAnd. change 255 with (Z.ones 8) at 1 2. rewrite Z.land_ones by lia.
  pose proof (Z.mod_pos_bound n (2 ^ 8) ltac:(lia)).
  change (2 ^ 8) with 256 in *. lia.
Qed.

(** The three bytes read off a 32-bit integer are those of its low 24
    bits. *)
Lemma bytes_low24 (n hi r g b : Z) :
  0 <= r <= 255 -> 0 <= g <= 255 -> 0 <= b <= 255 ->
  n = 16777216 * hi + 65536 * r + 256 * g + b ->
  bitAnd (shiftRight n 16) 255 = r /\
  bitAnd (shiftRight n 8) 255 = g /\
  bitAnd n 255 = b.
Proof.
  intros Hr Hg Hb Hn. unfold bitAnd, shiftRight.
  change 255 with (Z.ones 8). rewrite !Z.land_ones, !Z.shiftr_div_pow2 by lia.
  change (2 ^ 8) with 256. change (2 ^ 16) with 65536.
  repeat split; Z.div_mod_to_equations; lia.
Qed.

Lemma wrap32_shift (m : Z) :
  0 <= m < 4294967296 -> exists q, wrap32 m = m - 4294967296 * q.
Proof.
  intros Hm. unfold wrap32. change (2 ^ 32) with 4294967296.
  rewrite Z.mod_small by lia.
  destruct (2 ^ 31 <=? m); [exists 1|exists 0]; lia.
Qed.

Lemma channel_unit_check :
  forallb (fun k => unitInterval (channel (Z.of_nat k))) (seq 0 256) = true.
Proof. vm_compute. reflexivity. Qed.

Lemma channel_unit (k : Z) : 0 <= k <= 255 -> unitInterval (channel k) = true.
Proof.
  intros Hk. pose proof channel_unit_check as Hall.
  rewrite forallb_forall in Hall.
  specialize (Hall (Z.to_nat k)). rewrite Z2Nat.id in Hall by lia.
  apply Hall. apply in_seq. lia.
Qed.

Lemma doubleDigits_cons (c : ascii) (r : string) :
  doubleDigits (String c r) = String c (String c (doubleDigits r)).
Proof.
  unfold doubleDigits, JSString.chars. cbn [list_ascii_of_string map JSString.join].
  destruct (map _ (list_ascii_of_string r)); reflexivity.
Qed.

Lemma parseInt16_notNumeric (s : string) :
  notNumeric s = true -> parseInt16 s = JSNumber.NaN.
Proof.
  destruct s as [|c r]; [reflexivity|].
  intros H. each_char c; try discriminate H; reflexivity.
Qed.

Lemma stripHash_digit (c : ascii) (v : Z) (r : string) :
  hexDigitValue c = Some v -> stripHash (String c r) = String c r.
Proof. intros H. each_char c; try discriminate H; reflexivity. Qed.

End ColourFacts.

(** X1: whatever the string, hexToRgb returns three channels, each a byte
    divided by 255: a finite number between 0 and 1, never NaN. *)
Theorem hexToRgb_channels (hex : string) :
  exists r g b : Z,
    Particles.hexToRgb hex
    = [Particles.channel r; Particles.channel g; Particles.channel b] /\
    (0 <= r <= 255 /\ 0 <= g <= 255 /\ 0 <= b <= 255) /\
    Forall (fun c => ColourSpec.unitInterval c = true) (Particles.hexToRgb hex).
Proof.
  unfold Particles.hexToRgb.
  set (int := JSGlobal.ToInt32 _).
  pose proof (ColourFacts.low_byte (JSGlobal.shiftRight int 16)) as Hr.
  pose proof (ColourFacts.low_byte (JSGlobal.shiftRight int 8)) as Hg.
  pose proof (ColourFacts.low_byte int) as Hb.
  eexists _, _, _. split; [reflexivity|]. split; [now repeat split|].
  repeat constructor; now apply ColourFacts.channel_unit.
Qed.

(** X2: a colour of six hexadecimal digits, with or without the hash, gives
    exactly the three bytes its digit pairs spell, each divided by 255. *)
Theorem hexToRgb_six_digits (d1 d2 d3 d4 d5 d6 : ascii) (v1 v2 v3 v4 v5 v6 : Z) :
  JSGlobal.hexDigitValue d1 = Some v1 -> JSGlobal.hexDigitValue d2 = Some v2 ->
  JSGlobal.hexDigitValue d3 = Some v3 -> JSGlobal.hexDigitValue d4 = Some v4 ->
  JSGlobal.hexDigitValue d5 = Some v5 -> JSGlobal.hexDigitValue d6 = Some v6 ->
  let digits :=
    String d1 (String d2 (String d3 (String d4 (String d5 (String d6 EmptyString))))) in
  Particles.hexToRgb (String "#" digits)
  = [Particles.channel (16 * v1 + v2); Particles.channel (16 * v3 + v4);
     Particles.channel (16 * v5 + v6)] /\
  Particles.hexToRgb digits = Particles.hexToRgb (String "#" digits).
Proof.
  intros H1 H2 H3 H4 H5 H6 digits.
  pose proof (ColourFacts.hexDigit_range _ _ H1).
  pose proof (ColourFacts.hexDigit_range _ _ H2).
  pose proof (ColourFacts.hexDigit_range _ _ H3).
  pose proof (ColourFacts.hexDigit_range _ _ H4).
  pose proof (ColourFacts.hexDigit_range _ _ H5).
  pose proof (ColourFacts.hexDigit_range _ _ H6).
  split.
  - unfold Particles.hexToRgb, digits.
    cbn [Particles.stripHash String.length Nat.eqb].
    rewrite (ColourFacts.parse_six d1 d2 d3 d4 d5 d6 v1 v2 v3 v4 v5 v6) by assumption.
    destruct (ColourFacts.bytes_low24
                (1048576 * v1 + 65536 * v2 + 4096 * v3 + 256 * v4 + 16 * v5 + v6)
                0 (16 * v1 + v2) (16 * v3 + v4) (16 * v5 + v6))
      as (-> & -> & ->); try lia.
    reflexivity.
  - unfold Particles.hexToRgb, digits.
    rewrite (ColourFacts.stripHash_digit d1 v1 _ H1). reflexivity.
Qed.

Lemma hexToRgb_six_digits_ff4444 :
  Particles.hexToRgb "#ff4444"
  = [Particles.channel 255; Particles.channel 68; Particles.channel 68].
Proof.
  apply (hexToRgb_six_digits "f" "f" "4" "4" "4" "4" 15 15 4 4 4 4); reflexivity.
Defined.

(** X3: a colour of three hexadecimal digits after the hash is the colour
    with every digit doubled: each channel is 17 times its digit, divided by
    255. *)
Theorem hexToRgb_three_digits (d1 d2 d3 : ascii) (v1 v2 v3 : Z) :
  JSGlobal.hexDigitValue d1 = Some v1 -> JSGlobal.hexDigitValue d2 = Some v2 ->
  JSGlobal.hexDigitValue d3 = Some v3 ->
  Particles.hexToRgb (String "#" (String d1 (String d2 (String d3 EmptyString))))
  = [Particles.channel (17 * v1); Particles.channel (17 * v2);
     Particles.channel (17 * v3)].
Proof.
  intros H1 H2 H3.
  pose proof (ColourFacts.hexDigit_range _ _ H1).
  pose proof (ColourFacts.hexDigit_range _ _ H2).
  pose proof (ColourFacts.hexDigit_range _ _ H3).
  unfold Particles.hexToRgb.
  cbn [Particles.stripHash String.length Nat.eqb].
  rewrite !ColourFacts.doubleDigits_cons.
  change (Particles.doubleDigits EmptyString) with EmptyString.
  rewrite (ColourFacts.parse_six d1 d1 d2 d2 d3 d3 v1 v1 v2 v2 v3 v3) by assumption.
  destruct (ColourFacts.bytes_low24
              (1048576 * v1 + 65536 * v1 + 4096 * v2 + 256 * v2 + 16 * v3 + v3)
              0 (17 * v1) (17 * v2) (17 * v3))
    as (-> & -> & ->); try lia.
  reflexivity.
Qed.

Lemma hexToRgb_three_digits_f44 :
  Particles.hexToRgb "#f44"
  = [Particles.channel 255; Particles.channel 68; Particles.channel 68].
Proof.
  apply (hexToRgb_three_digits "f" "4" "4" 15 4 4); reflexivity.
Defined.

(** X4: with eight hexadecimal digits the two leading ones are lost: the
    channels are spelled by the third to the eighth digit, because only the
    low 24 bits of the 32-bit integer are read. *)
Theorem hexToRgb_eight_digits
    (d1 d2 d3 d4 d5 d6 d7 d8 : ascii) (v1 v2 v3 v4 v5 v6 v7 v8 : Z) :
  JSGlobal.hexDigitValue d1 = Some v1 -> JSGlobal.hexDigitValue d2 = Some v2 ->
  JSGlobal.hexDigitValue d3 = Some v3 -> JSGlobal.hexDigitValue d4 = Some v4 ->
  JSGlobal.hexDigitValue d5 = Some v5 -> JSGlobal.hexDigitValue d6 = Some v6 ->
  JSGlobal.hexDigitValue d7 = Some v7 -> JSGlobal.hexDigitValue d8 = Some v8 ->
  Particles.hexToRgb
    (String "#" (String d1 (String d2 (String d3 (String d4
       (String d5 (String d6 (String d7 (String d8 EmptyString)))))))))
  = [Particles.channel (16 * v3 + v4); Particles.channel (16 * v5 + v6);
     Particles.channel (16 * v7 + v8)].
Proof.
  intros H1 H2 H3 H4 H5 H6 H7 H8.
  pose proof (ColourFacts.hexDigit_range _ _ H1).
  pose proof (ColourFacts.hexDigit_range _ _ H2).
  pose proof (ColourFacts.hexDigit_range _ _ H3).
  pose proof (ColourFacts.hexDigit_range _ _ H4).
  pose proof (ColourFacts.hexDigit_range _ _ H5).
  pose proof (ColourFacts.hexDigit_range _ _ H6).
  pose proof (ColourFacts.hexDigit_range _ _ H7).
  pose proof (ColourFacts.hexDigit_range _ _ H8).
  unfold Particles.hexToRgb.
  cbn [Particles.stripHash String.length Nat.eqb].
  rewrite (ColourFacts.parse_eight d1 d2 d3 d4 d5 d6 d7 d8 v1 v2 v3 v4 v5 v6 v7 v8)
    by assumption.
  destruct (ColourFacts.wrap32_shift
              (268435456 * v1 + 16777216 * v2 + 1048576 * v3 + 65536 * v4
               + 4096 * v5 + 256 * v6 + 16 * v7 + v8)) as [q Hq]; [lia|].
  rewrite Hq.
  destruct (ColourFacts.bytes_low24
              (268435456 * v1 + 16777216 * v2 + 1048576 * v3 + 65536 * v4
               + 4096 * v5 + 256 * v6 + 16 * v7 + v8 - 4294967296 * q)
              (16 * v1 + v2 - 256 * q) (16 * v3 + v4) (16 * v5 + v6) (16 * v7 + v8))
    as (-> & -> & ->); try lia.
  reflexivity.
Qed.

Lemma hexToRgb_eight_digits_ff000080 :
  Particles.hexToRgb "#ff000080"
  = [Particles.channel 0; Particles.channel 0; Particles.channel 128].
Proof.
  apply (hexToRgb_eight_digits "f" "f" "0" "0" "0" "0" "8" "0" 15 15 0 0 0 0 8 0);
    reflexivity.
Defined.

(** X5: a text that cannot begin a hexadecimal number (empty after the hash,
    or beginning with a character that is no hexadecimal digit, no
    whitespace and no sign) is read as black: the three channels are +0. *)
Theorem hexToRgb_not_a_colour (hex : string) :
  ColourSpec.notNumeric (Particles.stripHash hex) = true ->
  Particles.hexToRgb hex = [S754_zero false; S754_zero false; S754_zero false].
Proof.
  intros H. unfold Particles.hexToRgb.
  assert (Hnan : JSGlobal.parseInt16
                   (if Nat.eqb (String.length (Particles.stripHash hex)) 3
                    then Particles.doubleDigits (Particles.stripHash hex)
                    else Particles.stripHash hex) = JSNumber.NaN).
  { apply ColourFacts.parseInt16_notNumeric.
    destruct (Nat.eqb _ 3); [|exact H].
    destruct (Particles.stripHash hex) as [|c r]; [reflexivity|].
    rewrite ColourFacts.doubleDigits_cons. exact H. }
  rewrite Hnan. reflexivity.
Qed.

Lemma hexToRgb_not_a_colour_red :
  Particles.hexToRgb "red" = [S754_zero false; S754_zero false; S754_zero false].
Proof. apply (hexToRgb_not_a_colour "red"). reflexivity. Defined.

(** ** ScrollReveal: words and runs of whitespace *)

Module ScrollRevealFacts.

Import JSString ScrollReveal.

Local Open Scope string_scope.

Lemma concat_consHead (c : ascii) (pieces : list string) :
  String.concat "" (consHead c pieces) = String c (String.concat "" pieces).
Proof.
  destruct pieces as [|p [|q rest]]; reflexivity.
Qed.

Lemma concat_cons_empty (pieces : list string) :
  pieces <> [] -> String.concat "" ("" :: pieces) = String.concat "" pieces.
Proof.
  destruct pieces as [|p rest]; [contradiction|reflexivity].
Qed.

Lemma consHead_nonempty (c : ascii) (pieces : list string) : consHead c pieces <> [].
Proof. destruct pieces; discriminate. Qed.

Lemma splitRuns_nonempty (b : bool) (s : string) : splitRuns b s <> [].
Proof.
  destruct s as [|c r]; simpl.
  - destruct b; discriminate.
  - destruct (isWhiteSpace c), b; try discriminate; apply consHead_nonempty.
Qed.

Lemma splitRuns_concat (s : string) :
  forall b, String.concat "" (splitRuns b s) = s.
Proof.
  induction s as [|c r IH]; intros b.
  - destruct b; reflexivity.
  - cbn [splitRuns].
    destruct (isWhiteSpace c), b;
      rewrite ?concat_cons_empty by apply consHead_nonempty;
      rewrite concat_consHead, IH; reflexivity.
Qed.

Lemma mapIndexed_text (pieces : list string) :
  forall k, map nodeText (mapIndexed k pieces) = pieces.
Proof.
  induction pieces as [|p rest IH]; intros k; simpl; [reflexivity|].
  rewrite IH. now destruct (isWhitespaceRun p).
Qed.

Lemma noWhitespace_not_run (w : string) :
  noWhitespace w = true -> isWhitespaceRun w = false.
Proof.
  unfold noWhitespace, isWhitespaceRun, chars.
  destruct w as [|c r]; [reflexivity|]. simpl.
  intros H. apply andb_true_iff in H. destruct H as [Hc _].
  apply negb_true_iff in Hc. now rewrite Hc.
Qed.

Lemma wordsAndRuns_consHead (c : ascii) (pieces : list string) :
  isWhiteSpace c = false -> wordsAndRuns pieces = true ->
  wordsAndRuns (consHead c pieces) = true.
Proof.
  intros Hc H. destruct pieces as [|w [|run rest]]; [discriminate H| |].
  - unfold consHead, wordsAndRuns, noWhitespace, chars in *. simpl.
    now rewrite Hc, H.
  - cbn [consHead]. cbn [wordsAndRuns] in *.
    apply andb_true_iff in H. destruct H as [H Hrest].
    apply andb_true_iff in H. destruct H as [Hw Hrun].
    rewrite Hrun, Hrest.
    unfold noWhitespace, chars in *. simpl. now rewrite Hc, Hw.
Qed.

(** The pieces alternate whichever state the split is in: from a word they
    form words and runs; inside a run the head is the rest of that run. *)
Lemma splitRuns_shape (s : string) :
  wordsAndRuns (splitRuns false s) = true /\
  exists run rest,
    splitRuns true s = run :: rest /\
    forallb isWhiteSpace (chars run) = true /\
    wordsAndRuns rest = true.
Proof.
  induction s as [|c r [IHw (run & rest & IHeq & IHrun & IHrest)]].
  - split; [reflexivity|]. exists "", [""]. repeat split.
  - cbn [splitRuns]. destruct (isWhiteSpace c) eqn:Hc.
    + rewrite IHeq. cbn [consHead]. split.
      * cbn [wordsAndRuns]. rewrite IHrest.
        unfold isWhitespaceRun, noWhitespace, chars. simpl.
        unfold chars in IHrun. now rewrite Hc, IHrun.
      * exists (String c run), rest. repeat split; [|exact IHrest].
        unfold chars in *. simpl. now rewrite Hc, IHrun.
    + split.
      * now apply wordsAndRuns_consHead.
      * exists "", (consHead c (splitRuns false r)). repeat split.
        now apply wordsAndRuns_consHead.
Qed.

(** Under the alternation, the words are wrapped in spans keyed by their
    position and the runs stay plain text; there is one word more than there
    are runs. *)
Lemma mapIndexed_alternates (n : nat) :
  forall (pieces : list string) (k : nat),
    (List.length pieces <= n)%nat -> Nat.even k = true ->
    wordsAndRuns pieces = true ->
    (forall j piece, nth_error pieces j = Some piece ->
       nth_error (mapIndexed k pieces) j
       = Some (if Nat.even j then WordSpan (k + j) piece else Text piece)) /\
    List.length (filter isWord (mapIndexed k pieces))
    = S (List.length (filter (fun x => negb (isWord x)) (mapIndexed k pieces))).
Proof.
  induction n as [|n IH]; intros pieces k Hlen Hk H.
  - destruct pieces; [discriminate H|simpl in Hlen; lia].
  - destruct pieces as [|w [|run rest]]; [discriminate H| |].
    + cbn [wordsAndRuns] in H. cbn [mapIndexed].
      rewrite (noWhitespace_not_run w H). split; [|reflexivity].
      intros [|[|j]] piece Hj; simpl in Hj; try discriminate Hj.
      inversion Hj; subst. simpl. now rewrite Nat.add_0_r.
    + cbn [wordsAndRuns] in H.
      apply andb_true_iff in H. destruct H as [H Hrest].
      apply andb_true_iff in H. destruct H as [Hw Hrun].
      cbn [mapIndexed]. rewrite (noWhitespace_not_run w Hw), Hrun.
      destruct (IH rest (S (S k))) as [IHnth IHcount];
        [simpl in Hlen; lia|exact Hk|exact Hrest|].
      split.
      * intros [|[|j]] piece Hj; simpl in Hj.
        -- inversion Hj; subst. simpl. now rewrite Nat.add_0_r.
        -- inversion Hj; subst. reflexivity.
        -- cbn [nth_error]. rewrite (IHnth j piece Hj).
           change (Nat.even (S (S j))) with (Nat.even j).
           replace (S (S k) + j)%nat with (k + S (S j))%nat by lia. reflexivity.
      * cbn [filter isWord negb List.length]. now rewrite IHcount.
Qed.

End ScrollRevealFacts.

(** X6: splitText loses nothing: the words and the whitespace it renders,
    read in order, spell the text again. *)
Theorem splitText_lossless (text : string) :
  String.concat "" (map ScrollReveal.nodeText (ScrollReveal.splitText (Some text)))
  = text.
Proof.
  unfold ScrollReveal.splitText.
  rewrite ScrollRevealFacts.mapIndexed_text.
  apply ScrollRevealFacts.splitRuns_concat.
Qed.

(** X7: splitText alternates words and runs of whitespace, beginning and
    ending with a word: the pieces at even positions contain no whitespace
    and become word spans keyed by their position, the pieces at odd
    positions are maximal runs of one or more whitespace characters and stay
    plain text, and there is exactly one word span more than there are
    runs. *)
Theorem splitText_alternates (text : string) :
  ScrollReveal.wordsAndRuns (ScrollReveal.splitRuns false text) = true /\
  (forall j piece,
      nth_error (ScrollReveal.splitRuns false text) j = Some piece ->
      nth_error (ScrollReveal.splitText (Some text)) j
      = Some (if Nat.even j then ScrollReveal.WordSpan j piece
              else ScrollReveal.Text piece)) /\
  List.length (filter ScrollReveal.isWord (ScrollReveal.splitText (Some text)))
  = S (List.length (filter (fun x => negb (ScrollReveal.isWord x))
                      (ScrollReveal.splitText (Some text)))).
Proof.
  destruct (ScrollRevealFacts.splitRuns_shape text) as [Hshape _].
  destruct (ScrollRevealFacts.mapIndexed_alternates
              (List.length (ScrollReveal.splitRuns false text))
              (ScrollReveal.splitRuns false text) 0 (le_n _) eq_refl Hshape)
    as [Hnth Hcount].
  split; [exact Hshape|]. split; [|exact Hcount].
  intros j piece Hj. unfold ScrollReveal.splitText. now rewrite (Hnth j piece Hj).
Qed.

(** ** Particles: the pointer *)

Lemma pointer_in_square_bounds (clientX clientY left top width height : R) :
  (0 < width)%R -> (0 < height)%R ->
  (left <= clientX <= left + width)%R ->
  (top <= clientY <= top + height)%R ->
  let p := Particles.handleMouseMove clientX clientY left top width height in
  (-1 <= fst p <= 1)%R /\ (-1 <= snd p <= 1)%R.
Proof.
  intros Hw Hh Hx Hy p.
  assert (Hiw : (0 < / width)%R) by now apply Rinv_0_lt_compat.
  assert (Hih : (0 < / height)%R) by now apply Rinv_0_lt_compat.
  assert (Hu : (0 <= (clientX - left) / width <= 1)%R).
  { unfold Rdiv. split.
    - apply Rmult_le_pos; lra.
    - apply Rmult_le_reg_r with width; [assumption|].
      rewrite Rmult_assoc, Rinv_l by lra. lra. }
  assert (Hv : (0 <= (clientY - top) / height <= 1)%R).
  { unfold Rdiv. split.
    - apply Rmult_le_pos; lra.
    - apply Rmult_le_reg_r with height; [assumption|].
      rewrite Rmult_assoc, Rinv_l by lra. lra. }
  unfold p, Particles.handleMouseMove. simpl. split; lra.
Qed.





(** X10: in binary64, for a container of width 0 the horizontal coordinate
    handleMouseMove stores is never a finite number, wherever the pointer
    and the container are: the division by the width gives NaN or an
    infinity and the scaling keeps it. *)
Theorem pointer_zero_width (clientX clientY left top height : JSNumber.number) :
  JSNumber.isFinite
    (fst (Particles.handleMouseMove clientX clientY left top (JSNumber.ofZ 0) height))
  = false.
Proof.
  unfold Particles.handleMouseMove.
  cbn [fst num_sub num_div num_mul num_lit binary64].
  generalize (JSNumber.sub clientX left). intros q.
  destruct q as [[|]|[|]| |[|] m e]; reflexivity.
Qed.

(** ** The falloff curves: what the claims leave open *)

Section MoreCurves.

Local Open Scope R_scope.

Variable radius : R.
Hypothesis radius_pos : 0 < radius.

Lemma norm_unit (d : R) : 0 <= Rmin (Rmax (1 - d / radius) 0) 1 <= 1.
Proof.
  split.
  - apply Rmin_glb; [apply Rmax_r|lra].
  - apply Rmin_r.
Qed.

Lemma norm_inside (d : R) :
  0 <= d <= radius -> Rmin (Rmax (1 - d / radius) 0) 1 = 1 - d / radius.
Proof.
  intros Hd. change (calculateFalloff radius "linear" d = 1 - d / radius).
  now apply linear_weight.
Qed.

Lemma norm_outside (d : R) :
  radius <= d -> Rmin (Rmax (1 - d / radius) 0) 1 = 0.
Proof.
  intros Hd.
  assert (1 <= d / radius).
  { apply Rmult_le_reg_r with radius; [assumption|].
    unfold Rdiv. rewrite Rmult_assoc, Rinv_l by lra. lra. }
  rewrite Rmax_right by lra. rewrite Rmin_left by lra. reflexivity.
Qed.

Lemma exponential_weight (d : R) :
  calculateFalloff radius "exponential" d
  = Rmin (Rmax (1 - d / radius) 0) 1 * Rmin (Rmax (1 - d / radius) 0) 1.
Proof. reflexivity. Qed.

Lemma linear_weight_clamped (d : R) :
  calculateFalloff radius "linear" d = Rmin (Rmax (1 - d / radius) 0) 1.
Proof. reflexivity. Qed.

Lemma ratio_order (d1 d2 : R) : d1 < d2 -> d1 / radius < d2 / radius.
Proof.
  intros H. unfold Rdiv. apply Rmult_lt_compat_r; [|exact H].
  now apply Rinv_0_lt_compat.
Qed.

End MoreCurves.

(** A falloff name other than exponential and gaussian, whatever it is,
    selects the linear curve: the switch has no error case. *)
Theorem falloff_default (name : string) (radius d : R) :
  name <> "exponential"%string -> name <> "gaussian"%string ->
  calculateFalloff radius name d = calculateFalloff radius "linear" d.
Proof.
  intros H1 H2. unfold calculateFalloff.
  apply String.eqb_neq in H1, H2. rewrite H1, H2. reflexivity.
Qed.

Lemma falloff_default_cubic :
  calculateFalloff 50%R "cubic" 10%R = calculateFalloff 50%R "linear" 10%R.
Proof. apply (falloff_default "cubic" 50 10); discriminate. Defined.








(** ** PillNav: the circle behind the layout *)

Lemma circle_algebra (w h r : R) :
  (0 < h)%R -> (0 <= w)%R -> (2 * h * r = w * w / 4 + h * h)%R ->
  (r * r - w * w / 4 = (r - h) * (r - h))%R /\
  (0 <= (r - h) * (r - h))%R /\
  (w <= 2 * r)%R /\
  ((2 * h <= w)%R -> (h <= r)%R).
Proof.
  intros Hh Hw Hdef.
  pose proof (Rle_0_sqr (r - h)) as Hs. unfold Rsqr in Hs.
  pose proof (Rle_0_sqr (w / 2 - h)) as Ht. unfold Rsqr in Ht.
  repeat split; try nra.
Qed.



(** ** Settings: repeated axes *)

Module MapFacts.

Import Proximity.

Lemma Map_set_NoDup (k : string) (v : JSNumber.number) (m : JSMap) :
  NoDup (map fst m) -> NoDup (map fst (Map_set k v m)).
Proof.
  induction m as [|[k0 v0] m IH]; simpl; intros Hnd.
  - constructor; [intros []|constructor].
  - inversion Hnd as [|? ? Hnotin Hrest]; subst.
    destruct (String.eqb k0 k) eqn:E; simpl.
    + constructor; assumption.
    + apply String.eqb_neq in E. constructor; [|now apply IH].
      rewrite SettingsFacts.Map_set_keys. intros [->|Hin]; [now apply E|contradiction].
Qed.

Lemma Map_new_NoDup (pairs : list (string * JSNumber.number)) :
  NoDup (map fst (Map_new pairs)).
Proof.
  unfold Map_new.
  assert (H : forall m, NoDup (map fst m) ->
                NoDup (map fst (fold_left (fun m kv => Map_set (fst kv) (snd kv) m)
                                  pairs m))).
  { induction pairs as [|[k v] pairs IH]; intros m Hm; simpl; [exact Hm|].
    apply IH. now apply Map_set_NoDup. }
  apply H. constructor.
Qed.

Lemma Map_set_length (k : string) (v : JSNumber.number) (m : JSMap) :
  (List.length (Map_set k v m) <= S (List.length m))%nat.
Proof.
  induction m as [|[k0 v0] m IH]; simpl; [lia|].
  destruct (String.eqb k0 k); simpl; lia.
Qed.

Lemma Map_new_length (pairs : list (string * JSNumber.number)) :
  (List.length (Map_new pairs) <= List.length pairs)%nat.
Proof.
  unfold Map_new.
  assert (H : forall m,
             (List.length (fold_left (fun m kv => Map_set (fst kv) (snd kv) m) pairs m)
              <= List.length m + List.length pairs)%nat).
  { induction pairs as [|[k v] pairs IH]; intros m; simpl; [lia|].
    specialize (IH (Map_set k v m)). pose proof (Map_set_length k v m). lia. }
  apply (H []).
Qed.

Lemma Map_get_set (k k' : string) (v : JSNumber.number) (m : JSMap) :
  Map_get (Map_set k v m) k' = if String.eqb k k' then Some v else Map_get m k'.
Proof.
  induction m as [|[k0 v0] m IH]; simpl; [reflexivity|].
  destruct (String.eqb k0 k) eqn:E; simpl.
  - apply String.eqb_eq in E. subst k0. now destruct (String.eqb k k').
  - rewrite IH. destruct (String.eqb k0 k') eqn:E0; [|reflexivity].
    apply String.eqb_eq in E0. subst k'. rewrite String.eqb_sym, E. reflexivity.
Qed.

(** Looking up a key in [new Map(pairs)] finds the value of the last pair
    with that key. *)
Lemma Map_new_get (pairs : list (string * JSNumber.number)) (k : string) :
  Map_get (Map_new pairs) k = SettingsSpec.lastValue pairs k.
Proof.
  unfold Map_new, SettingsSpec.lastValue.
  assert (H : forall m found, Map_get m k = found ->
             Map_get (fold_left (fun m kv => Map_set (fst kv) (snd kv) m) pairs m) k
             = fold_left (fun found kv =>
                            if String.eqb (fst kv) k then Some (snd kv) else found)
                 pairs found).
  { induction pairs as [|[k0 v0] pairs IH]; intros m found Hm; simpl; [exact Hm|].
    apply IH. rewrite Map_get_set. simpl. now rewrite Hm. }
  now apply H.
Qed.

Lemma Map_get_In (m : JSMap) (k : string) (v : JSNumber.number) :
  NoDup (map fst m) -> In (k, v) m -> Map_get m k = Some v.
Proof.
  induction m as [|[k0 v0] m IH]; simpl; intros Hnd Hin; [contradiction|].
  inversion Hnd as [|? ? Hnotin Hrest]; subst.
  destruct Hin as [E|Hin].
  - inversion E; subst. now rewrite String.eqb_refl.
  - destruct (String.eqb k0 k) eqn:E.
    + apply String.eqb_eq in E. subst k0. exfalso. apply Hnotin.
      change k with (fst (k, v)). now apply in_map.
    + now apply IH.
Qed.

End MapFacts.

(** X16: the parsed settings name every axis once, however often the
    specification repeats it, and they are never more than the
    comma-separated pieces of the [from] string; so the style string written
    to a letter mentions each axis at most once. *)
Theorem parsed_axes_unique (from to : string) :
  NoDup (map Proximity.axis (Proximity.parsedSettings from to)) /\
  (List.length (Proximity.parsedSettings from to)
   <= List.length (JSString.split "," from))%nat.
Proof.
  split.
  - rewrite SettingsFacts.parsedSettings_axes. apply MapFacts.Map_new_NoDup.
  - unfold Proximity.parsedSettings. rewrite length_map.
    unfold Proximity.parseSettings.
    pose proof (MapFacts.Map_new_length (Proximity.rawPairs from)) as H.
    unfold Proximity.rawPairs in H at 2. rewrite !length_map in H. exact H.
Qed.

(** X17: when a specification names an axis several times the last value
    wins: the start value of a parsed axis is the value of the last pair of
    the [from] string naming it, and its end value is the value of the last
    pair of the [to] string naming it, or the start value when there is
    none. *)
Theorem parsed_values_last_wins (from to : string) (a : Proximity.VariationAxis) :
  In a (Proximity.parsedSettings from to) ->
  SettingsSpec.lastValue (Proximity.rawPairs from) (Proximity.axis a)
  = Some (Proximity.fromValue a) /\
  Proximity.toValue a
  = match SettingsSpec.lastValue (Proximity.rawPairs to) (Proximity.axis a) with
    | Some v => v
    | None => Proximity.fromValue a
    end.
Proof.
  intros Ha. unfold Proximity.parsedSettings in Ha.
  apply in_map_iff in Ha. destruct Ha as [[k v] [<- Hin]]. simpl.
  unfold Proximity.parseSettings in *. split.
  - rewrite <- MapFacts.Map_new_get.
    apply MapFacts.Map_get_In; [apply MapFacts.Map_new_NoDup|exact Hin].
  - now rewrite MapFacts.Map_new_get.
Qed.

Lemma parsed_values_last_wins_sample :
  SettingsSpec.lastValue (Proximity.rawPairs "'wght' 100, 'wght' 400") "wght"
  = Some (JSNumber.ofZ 400).
Proof.
  apply (parsed_values_last_wins "'wght' 100, 'wght' 400" "'wght' 800"
           {| Proximity.axis := "wght";
              Proximity.fromValue := JSNumber.ofZ 400;
              Proximity.toValue := JSNumber.ofZ 800 |}).
  vm_compute. left. reflexivity.
Defined.

(** ** The frame callback as a whole *)

Module FrameMoreFacts.

Import Proximity.

Lemma array_set_same {A} (i : nat) (v : A) (a : list (option A)) :
  array_get a i = Some v -> array_set i v a = a.
Proof.
  revert a. induction i as [|i IH]; intros a H.
  - destruct a as [|o a]; [discriminate H|].
    unfold array_get in H. simpl in H. now subst o.
  - destruct a as [|o a]; [discriminate H|].
    simpl. f_equal. apply IH. exact H.
Qed.

Section Frame.

Variable Math_exp : JSNumber.number -> JSNumber.number.
Variable props : Props.
Variable mouse : Position.

Lemma forEachLetter_refs (refs : list (option LetterElement)) :
  forall (i : nat) (cache : list (option string)),
    fst (forEachLetter Math_exp props mouse i refs cache) = map (FrameView.animated Math_exp props mouse) refs.
Proof.
  induction refs as [|r refs IH]; intros i cache; [reflexivity|].
  simpl.
  destruct (animateLetter Math_exp props mouse i r cache) as [el cache1] eqn:E1.
  specialize (IH (S i) cache1).
  destruct (forEachLetter Math_exp props mouse (S i) refs cache1) as [rest cache2].
  simpl in *. rewrite IH. f_equal.
  unfold FrameView.animated.
  rewrite (FrameFacts.animateLetter_element Math_exp props mouse 0 i r [] cache), E1.
  reflexivity.
Qed.

(** The style of an element plays no part in what the callback computes
    for it. *)
Lemma letterDistance_setStyle (el : LetterElement) (s : string) :
  letterDistance props mouse (setStyle el s) = letterDistance props mouse el.
Proof. reflexivity. Qed.

Lemma interpolated_setStyle (el : LetterElement) (s : string) :
  FrameView.interpolated Math_exp props mouse (setStyle el s)
  = FrameView.interpolated Math_exp props mouse el.
Proof. reflexivity. Qed.

Lemma animated_cases (el : LetterElement) :
  FrameView.animated Math_exp props mouse (Some el)
  = Some (setStyle el
            (if num_ge (letterDistance props mouse el) (radius props)
             then fromFontVariationSettings props else FrameView.interpolated Math_exp props mouse el)).
Proof.
  unfold FrameView.animated, animateLetter, FrameView.interpolated.
  destruct (num_ge _ _); reflexivity.
Qed.

Lemma animated_twice (r : option LetterElement) : FrameView.animated Math_exp props mouse (FrameView.animated Math_exp props mouse r)
  = FrameView.animated Math_exp props mouse r.
Proof.
  destruct r as [el|]; [|reflexivity].
  rewrite animated_cases.
  set (s := if num_ge _ _ then _ else _).
  rewrite animated_cases. reflexivity.
Qed.

(** A letter inside the radius finds its style in the cache after the
    loop. *)
Lemma forEachLetter_written (refs : list (option LetterElement)) :
  forall (i j : nat) (cache : list (option string)) (el : LetterElement),
    nth_error refs j = Some (Some el) ->
    num_ge (letterDistance props mouse el) (radius props) = false ->
    array_get (snd (forEachLetter Math_exp props mouse i refs cache)) (i + j)
    = Some (FrameView.interpolated Math_exp props mouse el).
Proof.
  induction refs as [|r refs IH]; intros i j cache el Hj Hin.
  - destruct j; discriminate Hj.
  - simpl.
    destruct (animateLetter Math_exp props mouse i r cache) as [e cache1] eqn:E1.
    destruct (forEachLetter Math_exp props mouse (S i) refs cache1) as [rest cache2] eqn:E2.
    simpl. destruct j as [|j].
    + simpl in Hj. inversion Hj; subst r.
      change cache2 with (snd (rest, cache2)). rewrite <- E2.
      rewrite FrameFacts.forEachLetter_cache.
      * unfold animateLetter in E1. rewrite Hin in E1. inversion E1; subst.
        rewrite Nat.add_0_r, FrameFacts.array_get_set, Nat.eqb_refl. reflexivity.
      * intros j r Hr Hidx. lia.
    + simpl in Hj. change cache2 with (snd (rest, cache2)). rewrite <- E2.
      replace (i + S j)%nat with (S i + j)%nat by lia.
      now apply IH.
Qed.

(** A cache that already holds the styles of the letters inside the radius
    is left as it is. *)
Lemma forEachLetter_settled (refs : list (option LetterElement)) :
  forall (i : nat) (cache : list (option string)),
    (forall j el, nth_error refs j = Some (Some el) ->
       num_ge (letterDistance props mouse el) (radius props) = false ->
       array_get cache (i + j) = Some (FrameView.interpolated Math_exp props mouse el)) ->
    snd (forEachLetter Math_exp props mouse i refs cache) = cache.
Proof.
  induction refs as [|r refs IH]; intros i cache H; [reflexivity|].
  simpl.
  destruct (animateLetter Math_exp props mouse i r cache) as [e cache1] eqn:E1.
  assert (Hc : cache1 = cache).
  { unfold animateLetter in E1. destruct r as [el|]; [|now inversion E1].
    destruct (num_ge (letterDistance props mouse el) (radius props)) eqn:Hge;
      inversion E1; subst; [reflexivity|].
    apply array_set_same.
    specialize (H 0%nat el eq_refl Hge). now rewrite Nat.add_0_r in H. }
  subst cache1.
  specialize (IH (S i) cache).
  destruct (forEachLetter Math_exp props mouse (S i) refs cache) as [rest cache2].
  cbn [snd]. apply IH.
  intros j el Hj Hin. replace (S i + j)%nat with (i + S j)%nat by lia.
  now apply H.
Qed.

End Frame.

End FrameMoreFacts.

(** X18: a frame never adds, drops or moves a letter: the refs keep their
    number, an unmounted ref stays unmounted, a mounted letter keeps its
    measured box, and its style after the frame is either the from string
    (at or beyond the radius) or this frame's interpolation (inside it),
    never a style of an earlier frame; the position read is remembered. *)
Theorem frame_keeps_letters
    (Math_exp : JSNumber.number -> JSNumber.number) (props : Proximity.Props)
    (mouse : Proximity.Position) (st : Proximity.State) :
  List.length (Proximity.letterRefs (Proximity.frame Math_exp props mouse st))
  = List.length (Proximity.letterRefs st) /\
  (forall i, nth_error (Proximity.letterRefs st) i = Some None ->
     nth_error (Proximity.letterRefs (Proximity.frame Math_exp props mouse st)) i
     = Some None) /\
  (forall i el, nth_error (Proximity.letterRefs st) i = Some (Some el) ->
     exists el',
       nth_error (Proximity.letterRefs (Proximity.frame Math_exp props mouse st)) i
       = Some (Some el') /\
       Proximity.rect el' = Proximity.rect el /\
       Proximity.fontVariationSettings el'
       = if num_ge (Proximity.letterDistance props mouse el) (Proximity.radius props)
         then Proximity.fromFontVariationSettings props
         else FrameView.interpolated Math_exp props mouse el) /\
  Proximity.lastPositionRef (Proximity.frame Math_exp props mouse st) = Some mouse.
Proof.
  unfold Proximity.frame.
  pose proof (FrameMoreFacts.forEachLetter_refs Math_exp props mouse
                (Proximity.letterRefs st) 0 (Proximity.interpolatedSettingsRef st))
    as Hrefs.
  destruct (Proximity.forEachLetter Math_exp props mouse 0 (Proximity.letterRefs st)
              (Proximity.interpolatedSettingsRef st)) as [refs cache].
  cbn [fst Proximity.letterRefs Proximity.lastPositionRef] in *. subst refs.
  split; [apply length_map|]. split; [|split; [|reflexivity]].
  - intros i Hi. rewrite nth_error_map, Hi. reflexivity.
  - intros i el Hi. rewrite nth_error_map, Hi. cbn [option_map].
    rewrite FrameMoreFacts.animated_cases.
    eexists. split; [reflexivity|]. split; reflexivity.
Qed.

(** X19: a mounted letter inside the radius has, after the frame, the style
    it was given stored at its own index of the cache of interpolated
    settings, whatever other letters the frame visited. *)
Theorem inside_radius_cached
    (Math_exp : JSNumber.number -> JSNumber.number) (props : Proximity.Props)
    (mouse : Proximity.Position) (st : Proximity.State)
    (index : nat) (el : Proximity.LetterElement) :
  nth_error (Proximity.letterRefs st) index = Some (Some el) ->
  num_ge (Proximity.letterDistance props mouse el) (Proximity.radius props) = false ->
  Proximity.array_get
    (Proximity.interpolatedSettingsRef (Proximity.frame Math_exp props mouse st)) index
  = Some (FrameView.interpolated Math_exp props mouse el) /\
  nth_error (Proximity.letterRefs (Proximity.frame Math_exp props mouse st)) index
  = Some (Some (Proximity.setStyle el
                  (FrameView.interpolated Math_exp props mouse el))).
Proof.
  intros Hel Hin. unfold Proximity.frame.
  pose proof (FrameMoreFacts.forEachLetter_refs Math_exp props mouse
                (Proximity.letterRefs st) 0 (Proximity.interpolatedSettingsRef st))
    as Hrefs.
  pose proof (FrameMoreFacts.forEachLetter_written Math_exp props mouse
                (Proximity.letterRefs st) 0 index
                (Proximity.interpolatedSettingsRef st) el Hel Hin) as Hcache.
  destruct (Proximity.forEachLetter Math_exp props mouse 0 (Proximity.letterRefs st)
              (Proximity.interpolatedSettingsRef st)) as [refs cache].
  cbn [fst snd Proximity.letterRefs Proximity.interpolatedSettingsRef] in *.
  subst refs. split; [exact Hcache|].
  rewrite nth_error_map, Hel. cbn [option_map].
  rewrite FrameMoreFacts.animated_cases, Hin. reflexivity.
Qed.

Lemma inside_radius_cached_hero :
  Proximity.array_get
    (Proximity.interpolatedSettingsRef
       (Proximity.frame Sample.noExp Sample.linearProps Sample.onLetter
          Sample.oneLetter)) 0
  = Some (FrameView.interpolated Sample.noExp Sample.linearProps Sample.onLetter
            Sample.farLetter).
Proof.
  apply (inside_radius_cached Sample.noExp Sample.linearProps Sample.onLetter
           Sample.oneLetter 0 Sample.farLetter).
  - reflexivity.
  - vm_compute. reflexivity.
Defined.


(** ** The hooks over a whole life of the component *)

Module TraceFacts.

Import Proximity Lifecycle LifecycleTraces.

Section Hooks.

Variable Math_exp : JSNumber.number -> JSNumber.number.
Variable props : Props.

(** Mounting a component whose effects are released sets them up again, at
    whatever handle the window has reached. *)
Lemma mount_from_idle (w : World) :
  idleInv w -> mountedInv (step Math_exp props w Mount).
Proof.
  intros [Hl Hr]. simpl.
  unfold startLoop, listen, addEventListener, setListeners, requestAnimationFrame.
  rewrite Hl. simpl. rewrite Hr. simpl.
  split; [reflexivity|]. eexists. split; reflexivity.
Qed.

Lemma invariant_run (evs : list Event) :
  forall (mounted : bool) (w : World),
    invariant mounted w -> wellFormed mounted evs = true ->
    invariant (mountedAfter mounted evs) (run Math_exp props evs w).
Proof.
  induction evs as [|ev evs IH]; intros mounted w Hw Hwf; [exact Hw|].
  change (run Math_exp props (ev :: evs) w)
    with (run Math_exp props evs (step Math_exp props w ev)).
  destruct ev as [| | |cx cy|cx cy|]; cbn [wellFormed mountedAfter] in *.
  - apply andb_true_iff in Hwf. destruct Hwf as [Hm Hwf].
    apply negb_true_iff in Hm. subst mounted.
    apply IH; [|exact Hwf]. now apply mount_from_idle.
  - apply andb_true_iff in Hwf. destruct Hwf as [Hm Hwf]. subst mounted.
    apply IH; [|exact Hwf].
    now apply (LifecycleFacts.mounted_step Math_exp props w Rerender).
  - apply andb_true_iff in Hwf. destruct Hwf as [Hm Hwf]. subst mounted.
    apply IH; [|exact Hwf].
    now apply (LifecycleFacts.unmount_releases Math_exp props w).
  - apply IH; [|exact Hwf]. destruct mounted.
    + now apply (LifecycleFacts.mounted_step Math_exp props w (MouseMove cx cy)).
    + now apply (LifecycleFacts.idle_step Math_exp props w (MouseMove cx cy)).
  - apply IH; [|exact Hwf]. destruct mounted.
    + now apply (LifecycleFacts.mounted_step Math_exp props w (TouchMove cx cy)).
    + now apply (LifecycleFacts.idle_step Math_exp props w (TouchMove cx cy)).
  - apply IH; [|exact Hwf]. destruct mounted.
    + now apply (LifecycleFacts.mounted_step Math_exp props w AnimationFrame).
    + now apply (LifecycleFacts.idle_step Math_exp props w AnimationFrame).
Qed.

End Hooks.

End TraceFacts.

(** X21: over any life of the component (mounts and unmounts in turn,
    renders while mounted, pointer, touch and frame events at any time),
    while it is mounted exactly the two listeners are registered and exactly
    one frame request is pending, the one whose handle the effect holds; and
    while it is not mounted no listener and no request is left.  Requests
    and listeners never pile up over renders or remounts. *)
Theorem hooks_never_leak
    (Math_exp : JSNumber.number -> JSNumber.number) (props : Proximity.Props)
    (st : Proximity.State) (evs : list Lifecycle.Event) :
  LifecycleTraces.wellFormed false evs = true ->
  let w := Lifecycle.run Math_exp props evs (Lifecycle.initial st) in
  if LifecycleTraces.mountedAfter false evs
  then Lifecycle.listeners w = [Lifecycle.mousemove; Lifecycle.touchmove] /\
       exists id, Lifecycle.frameId w = Some id /\ Lifecycle.frameRequests w = [id]
  else Lifecycle.listeners w = [] /\ Lifecycle.frameRequests w = [].
Proof.
  intros Hwf w.
  pose proof (TraceFacts.invariant_run Math_exp props evs false (Lifecycle.initial st))
    as H.
  fold w in H. specialize (H (conj eq_refl eq_refl) Hwf).
  unfold LifecycleTraces.invariant in H.
  destruct (LifecycleTraces.mountedAfter false evs); exact H.
Qed.

Lemma hooks_never_leak_remount :
  let w :=
    Lifecycle.run Sample.noExp Sample.linearProps
      (Lifecycle.Mount :: Lifecycle.Unmount :: Lifecycle.Mount
         :: Sample.beforeUnmount)
      (Lifecycle.initial Sample.oneLetter) in
  Lifecycle.listeners w = [Lifecycle.mousemove; Lifecycle.touchmove] /\
  exists id, Lifecycle.frameId w = Some id /\ Lifecycle.frameRequests w = [id].
Proof.
  apply (hooks_never_leak Sample.noExp Sample.linearProps Sample.oneLetter
           (Lifecycle.Mount :: Lifecycle.Unmount :: Lifecycle.Mount
              :: Sample.beforeUnmount)).
  reflexivity.
Defined.

(** X22: while the component is mounted the frame reads the latest pointer
    sample: after two pointer moves and a display refresh, the letters are
    those of one frame run on the state before, at the position of the
    second move taken relative to the container; the first move leaves no
    trace. *)
Theorem frame_reads_last_pointer
    (Math_exp : JSNumber.number -> JSNumber.number) (props : Proximity.Props)
    (w : Lifecycle.World) (x1 y1 x2 y2 : JSNumber.number) :
  Lifecycle.mountedInv w ->
  Lifecycle.engine
    (Lifecycle.run Math_exp props
       [Lifecycle.MouseMove x1 y1; Lifecycle.TouchMove x2 y2; Lifecycle.AnimationFrame]
       w)
  = Proximity.frame Math_exp props
      (Lifecycle.mousePositionRef (Lifecycle.updatePosition props x2 y2 w))
      (Lifecycle.engine w).
Proof.
  intros [Hl [id [Hid Hreq]]].
  unfold Lifecycle.run. cbn [fold_left Lifecycle.step].
  unfold Lifecycle.dispatch. rewrite Hl. cbn [existsb Lifecycle.EventType_eqb orb].
  cbn [Lifecycle.updatePosition Lifecycle.listeners]. rewrite Hl.
  cbn [existsb Lifecycle.EventType_eqb orb].
  unfold Lifecycle.animationFrame. cbn [Lifecycle.updatePosition Lifecycle.frameRequests].
  rewrite Hreq. reflexivity.
Qed.

Lemma frame_reads_last_pointer_hero :
  Lifecycle.engine
    (Lifecycle.run Sample.noExp Sample.linearProps
       [Lifecycle.MouseMove (JSNumber.ofZ 0) (JSNumber.ofZ 0);
        Lifecycle.TouchMove (JSNumber.ofZ 320) (JSNumber.ofZ 230);
        Lifecycle.AnimationFrame]
       (Lifecycle.step Sample.noExp Sample.linearProps
          (Lifecycle.initial Sample.oneLetter) Lifecycle.Mount))
  = Proximity.frame Sample.noExp Sample.linearProps Sample.onLetter Sample.oneLetter.
Proof.
  apply (frame_reads_last_pointer Sample.noExp Sample.linearProps
           (Lifecycle.step Sample.noExp Sample.linearProps
              (Lifecycle.initial Sample.oneLetter) Lifecycle.Mount)
           (JSNumber.ofZ 0) (JSNumber.ofZ 0) (JSNumber.ofZ 320) (JSNumber.ofZ 230)).
  split; [reflexivity|]. exists 0%nat. split; reflexivity.
Defined.

(** ** The contact form *)

Module ContactFacts.

Import ContactForm.

Lemma step_consistent (f : Form) (ev : Event) :
  consistent f -> consistent (step f ev).
Proof.
  unfold consistent. destruct f as [status pending]. simpl.
  destruct ev as [|n]; simpl.
  - unfold clickSubmit, handleContactSubmit. simpl.
    destruct status; intros ->; reflexivity.
  - unfold fire. simpl.
    destruct status; intros ->; destruct n as [|[|n]]; reflexivity.
Qed.

Lemma run_consistent (evs : list Event) :
  forall f, consistent f -> consistent (run evs f).
Proof.
  induction evs as [|ev evs IH]; intros f Hf; [exact Hf|].
  simpl. apply IH. now apply step_consistent.
Qed.

End ContactFacts.

(** X23: whatever the user clicks and whenever the timers come due, the
    status of the contact form and its pending timers agree: nothing is
    pending when it is idle, only the first timer while sending, only the
    second while sent, so never more than one timer is pending; and from any
    such state two timer firings bring the form back to idle with nothing
    pending.  The form never stays in sending or sent. *)
Theorem contact_form_cycle (evs : list ContactForm.Event) :
  let f := ContactForm.run evs ContactForm.initial in
  ContactForm.consistent f /\
  (List.length (ContactForm.timers f) <= 1)%nat /\
  ContactForm.run [ContactForm.Fire 0; ContactForm.Fire 0] f = ContactForm.initial.
Proof.
  intros f.
  assert (H : ContactForm.consistent f).
  { apply ContactFacts.run_consistent. reflexivity. }
  split; [exact H|].
  unfold ContactForm.consistent in H.
  destruct f as [status pending]. simpl in H.
  destruct status; subst pending; split; simpl; try lia; reflexivity.
Qed.

(** ** Settings: spacing and joining *)

Module SpacingFacts.

Import JSString Proximity.

Local Open Scope string_scope.

Lemma plain_parts (s : string) :
  plainToken s = true ->
  s <> "" /\
  forallb (fun c => negb (Ascii.eqb c " ")) (chars s) = true /\
  forallb (fun c => negb (Ascii.eqb c ",")) (chars s) = true /\
  forallb (fun c => negb (isWhiteSpace c)) (chars s) = true /\
  forallb plainChar (chars s) = true.
Proof.
  unfold plainToken. intros H.
  apply andb_true_iff in H. destruct H as [Hne Hp].
  split; [intros ->; discriminate Hne|].
  repeat split; try exact Hp; revert Hp; apply QuoteFacts.forallb_weaken; intros c Hc;
    destruct (QuoteFacts.plainChar_facts c Hc) as (Hw & _ & Hcm & Hsp);
    now rewrite ?Hw, ?Hcm, ?Hsp.
Qed.

Lemma trim_plain_ends (a v : string) :
  plainToken a = true -> plainToken v = true ->
  forall middle, trim (a ++ middle ++ v) = a ++ middle ++ v.
Proof.
  intros Ha Hv middle.
  destruct (plain_parts a Ha) as (Hane & _ & _ & Haw & _).
  destruct (plain_parts v Hv) as (Hvne & _ & _ & Hvw & _).
  unfold trim.
  replace (trimStart (a ++ middle ++ v)) with (a ++ middle ++ v).
  - rewrite !QuoteFacts.append_assoc.
    apply QuoteFacts.trimEnd_before_solid; assumption.
  - destruct a as [|c a]; [contradiction|].
    unfold chars in Haw. simpl in Haw. apply andb_true_iff in Haw.
    destruct Haw as [Hc _]. apply negb_true_iff in Hc. simpl. now rewrite Hc.
Qed.

Lemma whitespace_no_comma (pad : string) :
  forallb isWhiteSpace (chars pad) = true ->
  forallb (fun c => negb (Ascii.eqb c ",")) (chars pad) = true.
Proof.
  apply QuoteFacts.forallb_weaken. intros c Hc.
  destruct (Ascii.eqb c ",") eqn:E; [|reflexivity].
  apply Ascii.eqb_eq in E. subst c. discriminate Hc.
Qed.

Lemma trimStart_pad (pad s : string) :
  forallb isWhiteSpace (chars pad) = true -> trimStart (pad ++ s) = trimStart s.
Proof.
  unfold chars. induction pad as [|c pad IH]; simpl; [reflexivity|].
  intros H. apply andb_true_iff in H. destruct H as [Hc Hp]. now rewrite Hc, IH.
Qed.

Lemma trimEnd_whitespace (pad : string) :
  forallb isWhiteSpace (chars pad) = true -> trimEnd pad = "".
Proof.
  unfold chars. induction pad as [|c pad IH]; simpl; [reflexivity|].
  intros H. apply andb_true_iff in H. destruct H as [Hc Hp]. now rewrite IH, Hc.
Qed.

Lemma trimEnd_pad (s pad : string) :
  forallb isWhiteSpace (chars pad) = true -> trimEnd (s ++ pad) = trimEnd s.
Proof.
  intros Hp. induction s as [|c s IH]; simpl.
  - now apply trimEnd_whitespace.
  - now rewrite IH.
Qed.

Lemma split_join (sep : ascii) (a b : string) :
  split sep (a ++ String sep b) = (split sep a ++ split sep b)%list.
Proof.
  induction a as [|c a IH]; simpl.
  - now rewrite Ascii.eqb_refl.
  - destruct (Ascii.eqb c sep); [now rewrite IH|].
    rewrite IH. pose proof (RenderFacts.split_nonempty sep a) as Hne.
    destruct (split sep a) as [|w ws]; [contradiction|reflexivity].
Qed.

End SpacingFacts.

(** X24: the parser does not recover from a missing or detached value: a
    piece that is only a name, and a name followed by two spaces and a
    value, both parse to that name with the value NaN. *)
Theorem settings_value_lost (n v : string) :
  Proximity.plainToken n = true -> Proximity.plainToken v = true ->
  Proximity.parseSettings n = [(n, JSNumber.NaN)] /\
  Proximity.parseSettings (n ++ "  " ++ v) = [(n, JSNumber.NaN)].
Proof.
  intros Hn Hv.
  destruct (SpacingFacts.plain_parts n Hn) as (Hnne & Hnsp & Hncm & Hnw & Hnp).
  destruct (SpacingFacts.plain_parts v Hv) as (Hvne & Hvsp & Hvcm & Hvw & Hvp).
  unfold Proximity.parseSettings, Proximity.rawPairs. split.
  - rewrite QuoteFacts.split_absent by assumption. cbn [map].
    pose proof (SpacingFacts.trim_plain_ends n n Hn Hn) as Ht.
    assert (Htrim : JSString.trim n = n).
    { unfold JSString.trim.
      replace (JSString.trimStart n) with n.
      - now apply QuoteFacts.trimEnd_solid.
      - destruct n as [|c r]; [contradiction|].
        unfold JSString.chars in Hnw. simpl in Hnw. apply andb_true_iff in Hnw.
        destruct Hnw as [Hc _]. apply negb_true_iff in Hc. simpl. now rewrite Hc. }
    rewrite Htrim. unfold Proximity.parsePair.
    rewrite QuoteFacts.split_absent by assumption.
    cbn [hd nth_error JSNumber.parseFloatArg Proximity.Map_new fold_left fst snd
         Proximity.Map_set].
    now rewrite QuoteFacts.removeQuotes_plain.
  - rewrite QuoteFacts.split_absent.
    2:{ rewrite !QuoteFacts.chars_app, !forallb_app, Hncm, Hvcm. reflexivity. }
    cbn [map]. rewrite (SpacingFacts.trim_plain_ends n v Hn Hv "  ").
    unfold Proximity.parsePair.
    change (n ++ "  " ++ v)%string with (n ++ String " " (String " " v))%string.
    rewrite QuoteFacts.split_first by assumption.
    change (String " " v) with (EmptyString ++ String " " v)%string.
    rewrite QuoteFacts.split_first by reflexivity.
    rewrite QuoteFacts.split_absent by assumption.
    cbn [hd nth_error JSNumber.parseFloatArg Proximity.Map_new fold_left fst snd
         Proximity.Map_set].
    rewrite QuoteFacts.removeQuotes_plain by assumption. reflexivity.
Qed.

Lemma settings_value_lost_wght :
  Proximity.parseSettings "wght" = [("wght"%string, JSNumber.NaN)] /\
  Proximity.parseSettings "wght  400" = [("wght"%string, JSNumber.NaN)].
Proof. apply (settings_value_lost "wght" "400"); reflexivity. Defined.

(** X25: whitespace before and after a pair is ignored: a pair [name value],
    the name in any of the three quoting styles, parses to the same axis and
    value with any run of whitespace in front of it and behind it. *)
Theorem settings_padding_ignored (q : option ascii) (n v before behind : string) :
  Proximity.quoteStyle q ->
  Proximity.plainToken n = true -> Proximity.plainToken v = true ->
  forallb JSString.isWhiteSpace (JSString.chars before) = true ->
  forallb JSString.isWhiteSpace (JSString.chars behind) = true ->
  Proximity.parseSettings (before ++ (Proximity.quoted q n ++ " " ++ v) ++ behind)
  = [(n, JSNumber.parseFloat v)].
Proof.
  intros Hq Hn Hv Hb1 Hb2.
  rewrite <- (QuoteFacts.parseSettings_quoted q n v Hq Hn Hv).
  destruct (QuoteFacts.quoted_chars q n Hq Hn) as (c & rest & Hshape & Hw & Hsp & Hcm).
  destruct (SpacingFacts.plain_parts v Hv) as (Hvne & Hvsp & Hvcm & Hvw & Hvp).
  set (core := (Proximity.quoted q n ++ " " ++ v)%string).
  assert (Hcore : forallb (fun c => negb (Ascii.eqb c ",")) (JSString.chars core) = true).
  { unfold core. rewrite !QuoteFacts.chars_app, !forallb_app, Hcm, Hvcm. reflexivity. }
  unfold Proximity.parseSettings, Proximity.rawPairs.
  rewrite (QuoteFacts.split_absent "," core Hcore).
  rewrite QuoteFacts.split_absent.
  2:{ rewrite !QuoteFacts.chars_app, !forallb_app, Hcore.
      rewrite (SpacingFacts.whitespace_no_comma before Hb1).
      rewrite (SpacingFacts.whitespace_no_comma behind Hb2). reflexivity. }
  cbn [map].
  assert (Hstart : forall t, JSString.trimStart (core ++ t) = (core ++ t)%string).
  { intros t. unfold core. rewrite Hshape. simpl. now rewrite Hw. }
  assert (Htrim : JSString.trim (before ++ core ++ behind) = JSString.trim core).
  { unfold JSString.trim.
    rewrite SpacingFacts.trimStart_pad, Hstart by assumption.
    rewrite SpacingFacts.trimEnd_pad by assumption.
    pose proof (Hstart EmptyString) as H0.
    rewrite QuoteFacts.append_empty in H0. now rewrite H0. }
  now rewrite Htrim.
Qed.

Lemma settings_padding_ignored_sample :
  Proximity.parseSettings "  'wght' 400 " = [("wght"%string, JSNumber.ofZ 400)].
Proof.
  apply (settings_padding_ignored (Some "'"%char) "wght" "400" "  " " ").
  - right. left. reflexivity.
  - reflexivity.
  - reflexivity.
  - reflexivity.
  - reflexivity.
Defined.

(** X26: joining two specifications with a comma joins their pairs: the
    pairs read from the joined string are those of the first followed by
    those of the second, and so are the axis names. *)
Theorem settings_join (a b : string) :
  Proximity.rawPairs (a ++ "," ++ b)
  = (Proximity.rawPairs a ++ Proximity.rawPairs b)%list /\
  Proximity.axisNames (a ++ "," ++ b)
  = (Proximity.axisNames a ++ Proximity.axisNames b)%list.
Proof.
  assert (H : Proximity.rawPairs (a ++ "," ++ b)
              = (Proximity.rawPairs a ++ Proximity.rawPairs b)%list).
  { unfold Proximity.rawPairs.
    change (a ++ "," ++ b)%string with (a ++ String "," b)%string.
    now rewrite SpacingFacts.split_join, !map_app. }
  split; [exact H|].
  unfold Proximity.axisNames. now rewrite H, map_app.
Qed.
